(** * Patient Management System: a shallow embedding of [main.py]

    The service keeps patient records in one JSON file, derives a body mass
    index and a verdict from height and weight, and offers create, read,
    update, delete and sort.  This file embeds the model class [Patient], the
    file helpers [load_data] / [save_data] and the request handlers, and
    proves the properties of the specification against them.

    Modelling conventions.
    - A Python [dict] is an association list with unique keys, in insertion
      order (the order [items()] iterates in and [json.dump] writes).
    - A Python [int] is a [Z].  A Python [float] is a binary64 value, the
      primitive [float]: division and comparison are the IEEE operations,
      with infinities, signed zeros and NaN.
    - The power [x ** 2] ends in the C library function [pow], whose last
      digit differs between libraries; that function is a parameter
      ([libm_pow]), and the interpreter's own cases around it are modelled.
    - The built-in [round(x, 2)] is correctly rounded: the exact binary value
      is rounded to hundredths, ties to even, and the nearest float to that
      decimal is returned.
    - The persisted file is [option store]: [None] when the path does not
      exist, otherwise the decoded document.  JSON encoding and decoding are
      taken as inverse of each other.
    - A raised exception is the [Err] branch of [outcome]; a handler maps a
      file state to an outcome and the file state it leaves behind. *)

From Stdlib Require Import List String Ascii Bool ZArith QArith Qround Qabs.
From Stdlib Require Import Floats Lia Lqa Permutation Sorted.
Import ListNotations.

Open Scope string_scope.
Open Scope Z_scope.

(** ** Exceptions and outcomes *)

Inductive exn : Type :=
| HTTPException (status_code : Z) (detail : string)
| ValidationError
| TypeError
| AttributeError
| ZeroDivisionError
| OverflowError
| ValueError.

Inductive outcome (A : Type) : Type :=
| Ok (a : A)
| Err (e : exn).

Arguments Ok {A} a.
Arguments Err {A} e.

Definition bind {A B : Type} (m : outcome A) (k : A -> outcome B) : outcome B :=
  match m with
  | Ok a => k a
  | Err e => Err e
  end.

Notation "x <- m ;; k" := (bind m (fun x => k))
  (at level 61, m at next level, right associativity).

Fixpoint mapM {A B : Type} (f : A -> outcome B) (l : list A) : outcome (list B) :=
  match l with
  | [] => Ok []
  | x :: t => y <- f x ;; ys <- mapM f t ;; Ok (y :: ys)
  end.

(** ** Python dictionaries *)

Module Dict.

Definition t (V : Type) : Type := list (string * V).

Fixpoint get {V : Type} (k : string) (d : t V) : option V :=
  match d with
  | [] => None
  | (k', v) :: r => if String.eqb k k' then Some v else get k r
  end.

(** [k in d] *)
Definition mem {V : Type} (k : string) (d : t V) : bool :=
  match get k d with Some _ => true | None => false end.

(** [d[k] = v]: an existing key keeps its position, a new key goes last. *)
Fixpoint set {V : Type} (k : string) (v : V) (d : t V) : t V :=
  match d with
  | [] => [(k, v)]
  | (k', v') :: r =>
      if String.eqb k k' then (k', v) :: r else (k', v') :: set k v r
  end.

(** [del d[k]] *)
Fixpoint del {V : Type} (k : string) (d : t V) : t V :=
  match d with
  | [] => []
  | (k', v') :: r => if String.eqb k k' then r else (k', v') :: del k r
  end.

Definition keys {V : Type} (d : t V) : list string := map fst d.

(** [{k: v for k, v in d.items() if k not in ks}] *)
Definition exclude {V : Type} (ks : list string) (d : t V) : t V :=
  filter (fun kv => negb (existsb (String.eqb (fst kv)) ks)) d.

End Dict.

(** ** JSON scalars held by a patient document

    Strings, integers and floats: the kinds of value the service itself
    writes.  Null, booleans, arrays and nested objects are left out. *)

Inductive value : Type :=
| VStr (s : string)
| VInt (n : Z)
| VFloat (x : float).

Definition doc : Type := Dict.t value.
Definition store : Type := Dict.t doc.

(** ** Float arithmetic used by the model class *)

(** [x / y] on floats raises [ZeroDivisionError] on a zero divisor. *)
Definition float_div (x y : float) : outcome float :=
  if is_zero y then Err ZeroDivisionError else Ok (x / y)%float.

(** The error indicator a C library call leaves behind; [EDOM] stands for
    any value other than [ERANGE]. *)
Inductive errno : Type :=
| ENONE
| ERANGE
| EDOM.

(** The type of the C library function [pow], with the error indicator it
    sets. *)
Definition c_pow : Type := float -> float -> float * errno.

(** The interpreter's correction of the indicator after a library call: an
    infinite result always counts as a range error, a zero result never. *)
Definition adjust_erange (x : float) (e : errno) : errno :=
  match e with
  | ENONE => if is_infinity x then ERANGE else ENONE
  | ERANGE => if is_zero x then ENONE else ERANGE
  | EDOM => EDOM
  end.

Definition Qlt_bool (x y : Q) : bool := negb (Qle_bool y x).

(** Nearest integer, ties to the even one. *)
Definition round_half_even (x : Q) : Z :=
  let f := Qfloor x in
  let r := (x - inject_Z f)%Q in
  if Qlt_bool r (1 # 2) then f
  else if Qlt_bool (1 # 2) r then f + 1
  else if Z.even f then f else f + 1.

(** The exact absolute value of the finite float with mantissa [m] and
    exponent [e]. *)
Definition magnitude (m : positive) (e : Z) : Q := (inject_Z (Zpos m) * 2 ^ e)%Q.

(** The float nearest to [n / d], with sign [s]. *)
Definition nearest_quotient (s : bool) (n : Z) (d : positive) : float :=
  match n with
  | Zpos n' =>
      SF2Prim (SFdiv prec emax (S754_finite s n' 0) (S754_finite false d 0))
  | _ => SF2Prim (S754_zero s)
  end.

(** Built-in [round(x, ndigits)] for a float [x] and [ndigits >= 0]:
    infinities, NaN and zeros are returned as they are. *)
Definition py_round (x : float) (ndigits : nat) : float :=
  match Prim2SF x with
  | S754_finite s m e =>
      let scale := Z.to_pos (10 ^ Z.of_nat ndigits) in
      nearest_quotient s
        (round_half_even (magnitude m e * inject_Z (Zpos scale))) scale
  | _ => x
  end.

(** [float(n)] for an integer [n]: the nearest float, none when [n] is too
    large. *)
Definition float_of_int (n : Z) : option float :=
  let x := SF2Prim (binary_normalize prec emax n 0 false) in
  if is_infinity x then None else Some x.

(** The integer a float is equal to, when it is one. *)
Definition int_of_float (x : float) : option Z :=
  match Prim2SF x with
  | S754_zero _ => Some 0
  | S754_finite s m e =>
      let v := if 0 <=? e then Some (Zpos m * 2 ^ e)
               else if Zpos m mod 2 ^ (- e) =? 0 then Some (Zpos m / 2 ^ (- e))
               else None in
      match v with
      | Some a => Some (if s then - a else a)
      | None => None
      end
  | _ => None
  end.

(** ** The model class [Patient] *)

Record Patient : Type := mkPatient {
  id : string;
  name : string;
  city : string;
  age : Z;
  gender : string;
  height : float;
  weight : float
}.

(** ** Built-in [sorted]

    The keys are computed once, up front, and compared with [<] only.  The
    sort is stable; with [reverse=True] the list is reversed, sorted and
    reversed again, which is how the interpreter keeps equal keys in their
    original order.  The insertion sort below returns what the interpreter's
    sort returns whenever no key is NaN; the order the interpreter leaves
    around a NaN key depends on its run detection and is not modelled. *)

Fixpoint insort {A : Type} (kx : float * A) (l : list (float * A))
  : list (float * A) :=
  match l with
  | [] => [kx]
  | ky :: t =>
      if (fst ky <? fst kx)%float then ky :: insort kx t else kx :: ky :: t
  end.

Definition stable_sort {A : Type} (l : list (float * A)) : list (float * A) :=
  fold_right insort [] l.

Definition sorted {A : Type} (l : list A) (key : A -> outcome float)
  (reverse : bool) : outcome (list A) :=
  keyed <- mapM (fun x => k <- key x ;; Ok (k, x)) l ;;
  let keyed := if reverse then rev keyed else keyed in
  let keyed := stable_sort keyed in
  let keyed := if reverse then rev keyed else keyed in
  Ok (map snd keyed).

Section Service.

Variable libm_pow : c_pow.
Variable str_as_int : string -> option Z.
Variable str_as_float : string -> option float.

(** [iv ** 2] on a float: the cases the interpreter settles itself, then the
    library call for a finite base other than zero and one. *)
Definition float_pow_two (iv : float) : outcome float :=
  if is_nan iv then Ok iv
  else if is_infinity iv then Ok (abs iv)
  else if is_zero iv then Ok zero
  else
    let iv := if (iv <? zero)%float then (- iv)%float else iv in
    if (iv =? one)%float then Ok one
    else
      let (ix, e) := libm_pow iv two in
      match adjust_erange ix e with
      | ENONE => Ok ix
      | ERANGE => Err OverflowError
      | EDOM => Err ValueError
      end.

(** [round(self.weight / ((self.height / 100) ** 2), 2)] *)
Definition bmi (self : Patient) : outcome float :=
  metres <- float_div (height self) 100 ;;
  square <- float_pow_two metres ;;
  q <- float_div (weight self) square ;;
  Ok (py_round q 2).

Definition verdict (self : Patient) : outcome string :=
  b <- bmi self ;;
  if (30 <=? b)%float then Ok "Obese"
  else
    b <- bmi self ;;
    if (25 <=? b)%float then Ok "Overweight"
    else
      b <- bmi self ;;
      if (18.5 <=? b)%float then Ok "Normal"
      else Ok "Underweight".

(** [self.model_dump(exclude=...)]: the declared fields in declaration order,
    then the computed fields, without the excluded keys. *)
Definition model_dump (self : Patient) (exclude : list string) : outcome doc :=
  b <- bmi self ;;
  v <- verdict self ;;
  Ok (Dict.exclude exclude
        [ ("id", VStr (id self)); ("name", VStr (name self));
          ("city", VStr (city self)); ("age", VInt (age self));
          ("gender", VStr (gender self)); ("height", VFloat (height self));
          ("weight", VFloat (weight self));
          ("bmi", VFloat b); ("verdict", VStr v) ]).

(** [getattr(x, attr)] for the float attributes that [valid_fields] allows;
    the handler never asks for another one. *)
Definition getattr (x : Patient) (attr : string) : outcome float :=
  if String.eqb attr "height" then Ok (height x)
  else if String.eqb attr "weight" then Ok (weight x)
  else if String.eqb attr "bmi" then bmi x
  else Err AttributeError.

(** ** Validation performed by the model class

    A keyword dictionary is accepted when every declared field is present,
    has (or coerces to) the declared type and meets its [gt=0] bound; other
    keys are ignored.  The coercion of a numeric string to [int] or [float]
    belongs to the validation library and is taken as a parameter. *)

Definition required (k : string) (kwargs : doc) : outcome value :=
  match Dict.get k kwargs with
  | Some v => Ok v
  | None => Err ValidationError
  end.

Definition validate_str (v : value) : outcome string :=
  match v with
  | VStr s => Ok s
  | _ => Err ValidationError
  end.

Definition validate_int (v : value) : outcome Z :=
  match v with
  | VInt n => Ok n
  | VFloat x =>
      match int_of_float x with
      | Some n =>
          if (- 2 ^ 63 <? n) && (n <? 2 ^ 63) then Ok n
          else Err ValidationError
      | None => Err ValidationError
      end
  | VStr s =>
      match str_as_int s with
      | Some n => Ok n
      | None => Err ValidationError
      end
  end.

Definition validate_float (v : value) : outcome float :=
  match v with
  | VFloat x => Ok x
  | VInt n =>
      match float_of_int n with
      | Some x => Ok x
      | None => Err ValidationError
      end
  | VStr s =>
      match str_as_float s with
      | Some x => Ok x
      | None => Err ValidationError
      end
  end.

Definition gt_int (bound n : Z) : outcome Z :=
  if bound <? n then Ok n else Err ValidationError.

Definition gt_float (bound x : float) : outcome float :=
  if (bound <? x)%float then Ok x else Err ValidationError.

(** The constructor called on a keyword dictionary. *)
Definition Patient_init (kwargs : doc) : outcome Patient :=
  i <- (v <- required "id" kwargs ;; validate_str v) ;;
  n <- (v <- required "name" kwargs ;; validate_str v) ;;
  c <- (v <- required "city" kwargs ;; validate_str v) ;;
  a <- (v <- required "age" kwargs ;; a <- validate_int v ;; gt_int 0 a) ;;
  g <- (v <- required "gender" kwargs ;; validate_str v) ;;
  h <- (v <- required "height" kwargs ;; h <- validate_float v ;; gt_float 0 h) ;;
  w <- (v <- required "weight" kwargs ;; w <- validate_float v ;; gt_float 0 w) ;;
  Ok (mkPatient i n c a g h w).

(** [Patient(id=pid, **info)]: a second [id] among the keywords is a
    [TypeError] of the call itself. *)
Definition Patient_of_entry (pid : string) (info : doc) : outcome Patient :=
  if Dict.mem "id" info then Err TypeError
  else Patient_init (("id", VStr pid) :: info).

(** ** The persisted file *)

Definition file : Type := option store.

Definition load_data (f : file) : store :=
  match f with
  | None => []
  | Some data => data
  end.

Definition save_data (data : store) (f : file) : file := Some data.

(** ** Handlers

    Each handler returns its outcome together with the file it leaves. *)

Record JSONResponse : Type := mkJSONResponse {
  status_code : Z;
  content : doc
}.

Definition view_patients (f : file) : outcome store * file :=
  (Ok (load_data f), f).

Definition get_patient (patient_id : string) (f : file) : outcome doc * file :=
  let data := load_data f in
  match Dict.get patient_id data with
  | None => (Err (HTTPException 404 "Patient not found"), f)
  | Some info =>
      (patient <- Patient_of_entry patient_id info ;; model_dump patient [], f)
  end.

Definition create_patient (patient : Patient) (f : file)
  : outcome JSONResponse * file :=
  let data := load_data f in
  if Dict.mem (id patient) data then
    (Err (HTTPException 400 "Patient with this ID already exists"), f)
  else
    match model_dump patient ["id"] with
    | Err e => (Err e, f)
    | Ok fields =>
        let data := Dict.set (id patient) fields data in
        let f := save_data data f in
        (Ok (mkJSONResponse 201
               [ ("message", VStr "Patient created successfully");
                 ("patient_id", VStr (id patient)) ]), f)
    end.

Definition valid_fields : list string := ["height"; "weight"; "bmi"].

Definition sort_patients (sort_by : string) (order : option string) (f : file)
  : outcome (list doc) * file :=
  let order := match order with Some o => o | None => "asc" end in
  if negb (existsb (String.eqb sort_by) valid_fields) then
    (Err (HTTPException 400 "sort_by must be ['height', 'weight', 'bmi']"), f)
  else if negb (existsb (String.eqb order) ["asc"; "desc"]) then
    (Err (HTTPException 400 "order must be asc or desc"), f)
  else
    let data := load_data f in
    (patients <- mapM (fun e => Patient_of_entry (fst e) (snd e)) data ;;
     sorted_patients <- sorted patients (fun x => getattr x sort_by)
                               (String.eqb order "desc") ;;
     mapM (fun p => model_dump p []) sorted_patients, f).

Definition update_patient (patient_id : string) (updated_patient : Patient)
  (f : file) : outcome doc * file :=
  let data := load_data f in
  match Dict.get patient_id data with
  | None => (Err (HTTPException 404 "Patient not found"), f)
  | Some _ =>
      match model_dump updated_patient ["id"] with
      | Err e => (Err e, f)
      | Ok fields =>
          let data := Dict.set patient_id fields data in
          let f := save_data data f in
          (Ok [("message", VStr "Patient updated successfully")], f)
      end
  end.

Definition delete_patient (patient_id : string) (f : file) : outcome doc * file :=
  let data := load_data f in
  match Dict.get patient_id data with
  | None => (Err (HTTPException 404 "Patient not found"), f)
  | Some _ =>
      let data := Dict.del patient_id data in
      let f := save_data data f in
      (Ok [("message", VStr "Patient deleted successfully")], f)
  end.

(** The framework builds the [Patient] argument of a handler from the request
    body and calls the handler only when that succeeds. *)

Definition post_create (body : doc) (f : file) : outcome JSONResponse * file :=
  match Patient_init body with
  | Err e => (Err e, f)
  | Ok patient => create_patient patient f
  end.

Definition put_update (patient_id : string) (body : doc) (f : file)
  : outcome doc * file :=
  match Patient_init body with
  | Err e => (Err e, f)
  | Ok updated_patient => update_patient patient_id updated_patient f
  end.

End Service.

(** ** Instances of the parameters for the concrete examples *)

(** A library power that is exact for the exponent 2 up to one rounding and
    reports no error.  Where an example's height is 100 the interpreter
    settles the power itself and the library is not reached. *)

Definition pow_square_once : c_pow := fun x _ => ((x * x)%float, ENONE).

(** Coercions that accept no string. *)

Definition no_str_as_int (s : string) : option Z := None.
Definition no_str_as_float (s : string) : option float := None.

(** A patient with an empty name, used in the concrete examples. *)

Definition patient_P001 : Patient :=
  mkPatient "P001" "" "Pune" 25 "Male" 175 70.

(** A replacement payload whose own ID differs from [patient_P001]'s. *)

Definition patient_P002 : Patient :=
  mkPatient "P002" "Asha" "" 31 "Female" 160 80.

(** The file left by creating [patient_P001] when no file existed. *)

Definition file_P001 : file :=
  snd (create_patient pow_square_once patient_P001 None).

(** A patient of the given height and weight. *)

Definition patient_of_size (h w : float) : Patient :=
  mkPatient "P100" "Ravi" "Pune" 40 "Male" h w.

(** The smallest positive float: a height that passes validation and whose
    hundredth is zero. *)

Definition tiny_height : float := 0x1p-1074.

(** A request body with an empty name and an empty city. *)

Definition body_empty_names : doc :=
  [ ("id", VStr "P003"); ("name", VStr ""); ("city", VStr "");
    ("age", VInt 52); ("gender", VStr "Female");
    ("height", VFloat 160); ("weight", VFloat 64) ].

(** A request body that validates and whose height is [tiny_height]. *)

Definition body_tiny_height : doc :=
  [ ("id", VStr "P004"); ("name", VStr "Tara"); ("city", VStr "Goa");
    ("age", VInt 33); ("gender", VStr "Female");
    ("height", VFloat tiny_height); ("weight", VFloat 64) ].

(** Three patients one metre tall, whose body mass index is their weight,
    and the file left by creating them in this order. *)

Definition patient_A : Patient := mkPatient "A" "Anil" "Pune" 30 "Male" 100 18.
Definition patient_B : Patient := mkPatient "B" "Bina" "Surat" 41 "Female" 100 31.
Definition patient_C : Patient := mkPatient "C" "Chitra" "Delhi" 52 "Female" 100 24.

Definition file_ABC : file :=
  snd (create_patient pow_square_once patient_C
         (snd (create_patient pow_square_once patient_B
                 (snd (create_patient pow_square_once patient_A None))))).

(** A file whose only entry carries an [id] key of its own. *)

Definition file_with_id_inside : file :=
  Some [("P009", [("id", VStr "P009"); ("name", VStr "Noor")])].

(** ** Predicates on keyed lists

    An element of a keyed list is a sort key paired with the item it was
    computed from. *)

(** [b]'s key is not below [a]'s. *)
Definition key_le {A : Type} (a b : float * A) : Prop :=
  (fst b <? fst a)%float = false.

Definition key_is {A : Type} (k : float) (a : float * A) : bool :=
  (fst a =? k)%float.

(** [x] has a key, and it equals [k]. *)
Definition key_matches {A : Type} (key : A -> outcome float) (k : float) (x : A)
  : bool :=
  match key x with
  | Ok k' => (k' =? k)%float
  | Err _ => false
  end.

(** Every item of [s] is paired with its own key. *)
Definition keyed_by {A : Type} (key : A -> outcome float)
  (s : list (float * A)) : Prop :=
  Forall (fun kx => key (snd kx) = Ok (fst kx)) s.

(** ** The order of floats, through their specification

    A float other than NaN has a rank, a triple compared
    lexicographically; the IEEE comparison of two such floats is the
    comparison of their ranks. *)

Definition SFis_nan (x : spec_float) : bool :=
  match x with
  | S754_nan => true
  | _ => false
  end.

Definition SFrank (x : spec_float) : Z * Z * Z :=
  match x with
  | S754_zero _ => (0, 0, 0)
  | S754_nan => (0, 0, 0)
  | S754_infinity false => (2, 0, 0)
  | S754_infinity true => (-2, 0, 0)
  | S754_finite false m e => (1, e, Zpos m)
  | S754_finite true m e => (-1, - e, Zneg m)
  end.

Definition rank_lt (a b : Z * Z * Z) : Prop :=
  let '(c1, e1, m1) := a in
  let '(c2, e2, m2) := b in
  c1 < c2 \/ (c1 = c2 /\ (e1 < e2 \/ (e1 = e2 /\ m1 < m2))).

Definition rank_eq (a b : Z * Z * Z) : Prop :=
  let '(c1, e1, m1) := a in
  let '(c2, e2, m2) := b in
  c1 = c2 /\ e1 = e2 /\ m1 = m2.

(** ** Rounding to hundredths, as a relation

    [b] is [q] rounded to two decimals: an infinity, a NaN or a zero is
    kept; otherwise [b] is the float nearest to [n / 100] for the integer
    [n] nearest to a hundred times the exact value of [q], the even one
    when two are equally near. *)

Definition rounded_to_hundredths (q b : float) : Prop :=
  match Prim2SF q with
  | S754_finite s m e =>
      exists n : Z,
        (Qabs (inject_Z n - magnitude m e * 100) <= 1 # 2)%Q /\
        ((Qabs (inject_Z n - magnitude m e * 100) == 1 # 2)%Q ->
         Z.even n = true) /\
        b = nearest_quotient s n 100
  | _ => b = q
  end.

(** ** The square, as a relation

    [sq] is the square of the positive float [m] as the interpreter
    computes it: 1 for 1, infinity for infinity, and otherwise the value the
    library power returns for the exponent two. *)

Definition square_of (libm_pow : c_pow) (m sq : float) : Prop :=
  if (m =? 1)%float then sq = 1%float
  else if is_infinity m then sq = infinity
  else fst (libm_pow m two) = sq.

(** The fields the model class declares. *)

Definition field_names : list string :=
  ["id"; "name"; "city"; "age"; "gender"; "height"; "weight"].

(** ** Predicates on records and stores *)

(** The record [p] filed under another ID. *)
Definition with_id (pid : string) (p : Patient) : Patient :=
  mkPatient pid (name p) (city p) (age p) (gender p) (height p) (weight p).

(** The bounds that the field declarations of the model class impose. *)
Definition within_bounds (p : Patient) : Prop :=
  0 < age p /\ (0 <? height p)%float = true /\ (0 <? weight p)%float = true.

(** The document [d] filed under [pid] is what the service writes for some
    record within bounds: its dump without the ID. *)
Definition entry_consistent (libm_pow : c_pow) (pid : string) (d : doc) : Prop :=
  exists p,
    id p = pid /\ within_bounds p /\ model_dump libm_pow p ["id"] = Ok d.

(** Keys are unique, as in any dictionary, and every entry is consistent. *)
Definition store_consistent (libm_pow : c_pow) (s : store) : Prop :=
  NoDup (Dict.keys s) /\
  Forall (fun e => entry_consistent libm_pow (fst e) (snd e)) s.

(** * Properties *)

(** ** Outcomes *)

Lemma bind_Ok_inv {A B : Type} (m : outcome A) (k : A -> outcome B) (b : B) :
  bind m k = Ok b -> exists a, m = Ok a /\ k a = Ok b.
Proof.
  destruct m as [a | e]; simpl; intros H; [eauto | discriminate].
Qed.

Ltac bind_inv H :=
  let a := fresh "a" in
  let Ha := fresh "Ha" in
  apply bind_Ok_inv in H; destruct H as (a & Ha & H).

(** ** Dictionaries *)

Lemma Dict_mem_get {V : Type} (k : string) (d : Dict.t V) :
  Dict.mem k d = false <-> Dict.get k d = None.
Proof.
  unfold Dict.mem. destruct (Dict.get k d); split; congruence.
Qed.

Lemma Dict_get_set_same {V : Type} (k : string) (v : V) (d : Dict.t V) :
  Dict.get k (Dict.set k v d) = Some v.
Proof.
  induction d as [| [k' v'] r IH]; simpl.
  - now rewrite String.eqb_refl.
  - destruct (String.eqb k k') eqn:E; simpl; rewrite E; auto.
Qed.

Lemma Dict_get_set_other {V : Type} (k k0 : string) (v : V) (d : Dict.t V) :
  k0 <> k -> Dict.get k0 (Dict.set k v d) = Dict.get k0 d.
Proof.
  intros Hne. induction d as [| [k' v'] r IH]; simpl.
  - destruct (String.eqb k0 k) eqn:E; auto.
    apply String.eqb_eq in E. contradiction.
  - destruct (String.eqb k k') eqn:E; simpl.
    + apply String.eqb_eq in E. subst k'.
      destruct (String.eqb k0 k) eqn:E0; auto.
      apply String.eqb_eq in E0. contradiction.
    + now rewrite IH.
Qed.

Lemma Dict_keys_set_present {V : Type} (k : string) (v : V) (d : Dict.t V) :
  Dict.get k d <> None -> Dict.keys (Dict.set k v d) = Dict.keys d.
Proof.
  induction d as [| [k' v'] r IH]; simpl; intros H.
  - congruence.
  - destruct (String.eqb k k') eqn:E; simpl; auto.
    f_equal. apply IH. exact H.
Qed.

Lemma Dict_keys_set_absent {V : Type} (k : string) (v : V) (d : Dict.t V) :
  Dict.get k d = None -> Dict.keys (Dict.set k v d) = (Dict.keys d ++ [k])%list.
Proof.
  induction d as [| [k' v'] r IH]; simpl; intros H; auto.
  destruct (String.eqb k k') eqn:E; [discriminate |].
  simpl. f_equal. now apply IH.
Qed.

Lemma Dict_get_None_keys {V : Type} (k : string) (d : Dict.t V) :
  Dict.get k d = None <-> ~ In k (Dict.keys d).
Proof.
  induction d as [| [k' v'] r IH]; simpl.
  - tauto.
  - destruct (String.eqb k k') eqn:E.
    + apply String.eqb_eq in E. subst. split; [discriminate | tauto].
    + apply String.eqb_neq in E. rewrite IH. split.
      * intros H [H1 | H1]; [congruence | tauto].
      * tauto.
Qed.

Lemma Dict_get_In {V : Type} (k : string) (v : V) (d : Dict.t V) :
  Dict.get k d = Some v -> In (k, v) d.
Proof.
  induction d as [| [k' v'] r IH]; simpl; [discriminate |].
  destruct (String.eqb k k') eqn:E.
  - apply String.eqb_eq in E. subst. intros H. injection H as <-. now left.
  - intros H. right. now apply IH.
Qed.

Lemma Dict_get_del_other {V : Type} (k k0 : string) (d : Dict.t V) :
  k0 <> k -> Dict.get k0 (Dict.del k d) = Dict.get k0 d.
Proof.
  intros Hne. induction d as [| [k' v'] r IH]; simpl; auto.
  destruct (String.eqb k k') eqn:E; simpl.
  - apply String.eqb_eq in E. subst k'.
    destruct (String.eqb k0 k) eqn:E0; auto.
    apply String.eqb_eq in E0. contradiction.
  - now rewrite IH.
Qed.

Lemma filter_other_keys (k : string) (l : list string) :
  ~ In k l -> filter (fun k' => negb (String.eqb k k')) l = l.
Proof.
  induction l as [| x t IH]; simpl; intros H; auto.
  destruct (String.eqb k x) eqn:E.
  - apply String.eqb_eq in E. subst. tauto.
  - simpl. f_equal. apply IH. tauto.
Qed.

Lemma Dict_keys_del {V : Type} (k : string) (d : Dict.t V) :
  NoDup (Dict.keys d) ->
  Dict.keys (Dict.del k d) =
    filter (fun k' => negb (String.eqb k k')) (Dict.keys d).
Proof.
  induction d as [| [k' v'] r IH]; simpl; intros N; auto.
  inversion N as [| ? ? Hk Nr]; subst.
  destruct (String.eqb k k') eqn:E; simpl.
  - apply String.eqb_eq in E. subst k'.
    symmetry. apply filter_other_keys. exact Hk.
  - f_equal. now apply IH.
Qed.

Lemma Dict_get_del_same {V : Type} (k : string) (d : Dict.t V) :
  NoDup (Dict.keys d) -> Dict.get k (Dict.del k d) = None.
Proof.
  intros N. apply Dict_get_None_keys. rewrite (Dict_keys_del k d N).
  rewrite filter_In, String.eqb_refl. simpl. intros [_ H]. discriminate.
Qed.

Lemma Dict_del_set_absent {V : Type} (k : string) (v : V) (d : Dict.t V) :
  Dict.get k d = None -> Dict.del k (Dict.set k v d) = d.
Proof.
  induction d as [| [k' v'] r IH]; simpl; intros H.
  - now rewrite String.eqb_refl.
  - destruct (String.eqb k k') eqn:E; [discriminate |].
    simpl. rewrite E. f_equal. now apply IH.
Qed.

Lemma Dict_set_set {V : Type} (k : string) (v1 v2 : V) (d : Dict.t V) :
  Dict.set k v2 (Dict.set k v1 d) = Dict.set k v2 d.
Proof.
  induction d as [| [k' v'] r IH]; simpl.
  - now rewrite String.eqb_refl.
  - destruct (String.eqb k k') eqn:E; simpl; rewrite E; auto.
    now rewrite IH.
Qed.

Lemma Dict_keys_set_NoDup {V : Type} (k : string) (v : V) (d : Dict.t V) :
  NoDup (Dict.keys d) -> NoDup (Dict.keys (Dict.set k v d)).
Proof.
  intros N. destruct (Dict.get k d) eqn:G.
  - rewrite Dict_keys_set_present; [exact N | congruence].
  - rewrite Dict_keys_set_absent by exact G.
    apply NoDup_app; [exact N | repeat constructor; simpl; tauto |].
    intros x Hx [<- | []]. now apply Dict_get_None_keys in G.
Qed.

Lemma Dict_keys_del_NoDup {V : Type} (k : string) (d : Dict.t V) :
  NoDup (Dict.keys d) -> NoDup (Dict.keys (Dict.del k d)).
Proof.
  intros N. rewrite (Dict_keys_del k d N). now apply NoDup_filter.
Qed.

Lemma Dict_set_Forall {V : Type} (P : string * V -> Prop)
  (k : string) (v : V) (d : Dict.t V) :
  P (k, v) -> Forall P d -> Forall P (Dict.set k v d).
Proof.
  intros Hkv. induction 1 as [| [k' v'] r Hx Hr IH]; simpl.
  - repeat constructor. exact Hkv.
  - destruct (String.eqb k k') eqn:E.
    + apply String.eqb_eq in E. subst k'. constructor; auto.
    + constructor; auto.
Qed.

Lemma Dict_del_Forall {V : Type} (P : string * V -> Prop)
  (k : string) (d : Dict.t V) :
  Forall P d -> Forall P (Dict.del k d).
Proof.
  induction 1 as [| [k' v'] r Hx Hr IH]; simpl; auto.
  destruct (String.eqb k k'); auto.
Qed.

(** ** The order of floats *)

Lemma SFcompare_rank (x y : spec_float) :
  SFis_nan x = false -> SFis_nan y = false ->
  exists c, SFcompare x y = Some c /\
    (c = Lt <-> rank_lt (SFrank x) (SFrank y)) /\
    (c = Gt <-> rank_lt (SFrank y) (SFrank x)) /\
    (c = Eq <-> rank_eq (SFrank x) (SFrank y)).
Proof.
  intros Hx Hy.
  destruct x as [sx | sx | | sx mx ex]; try discriminate;
  destruct y as [sy | sy | | sy my ey]; try discriminate;
  try destruct sx; try destruct sy; simpl;
  try (eexists; split; [reflexivity |];
       unfold rank_lt, rank_eq; simpl;
       repeat split; intros; try discriminate; try lia; fail).
  all: change (Pos.compare_cont Eq mx my) with (Pos.compare mx my).
  all: destruct (Z.compare_spec ex ey) as [E | E | E];
    try destruct (Pos.compare_spec mx my) as [P | P | P];
    eexists; (split; [reflexivity |]); unfold rank_lt, rank_eq; simpl;
    repeat split; intros; try discriminate; try lia; try congruence.
Qed.

Lemma SFltb_rank (x y : spec_float) :
  SFltb x y = true <->
  SFis_nan x = false /\ SFis_nan y = false /\ rank_lt (SFrank x) (SFrank y).
Proof.
  unfold SFltb.
  destruct (SFis_nan x) eqn:Nx.
  { destruct x; try discriminate. simpl. split; [discriminate | intros [H _]; discriminate]. }
  destruct (SFis_nan y) eqn:Ny.
  { destruct y; try discriminate.
    destruct x; simpl; split; try discriminate; intros (_ & H & _); discriminate. }
  destruct (SFcompare_rank x y Nx Ny) as (c & -> & HLt & _ & _).
  destruct c; split; try discriminate; try tauto.
  - intros (_ & _ & H). apply HLt in H. discriminate.
  - intros (_ & _ & H). apply HLt in H. discriminate.
Qed.

Lemma SFeqb_rank (x y : spec_float) :
  SFeqb x y = true <->
  SFis_nan x = false /\ SFis_nan y = false /\ rank_eq (SFrank x) (SFrank y).
Proof.
  unfold SFeqb.
  destruct (SFis_nan x) eqn:Nx.
  { destruct x; try discriminate. simpl. split; [discriminate | intros [H _]; discriminate]. }
  destruct (SFis_nan y) eqn:Ny.
  { destruct y; try discriminate.
    destruct x; simpl; split; try discriminate; intros (_ & H & _); discriminate. }
  destruct (SFcompare_rank x y Nx Ny) as (c & -> & _ & _ & HEq).
  destruct c; split; try discriminate; try tauto.
  - intros (_ & _ & H). apply HEq in H. discriminate.
  - intros (_ & _ & H). apply HEq in H. discriminate.
Qed.

Lemma SFleb_rank (x y : spec_float) :
  SFleb x y = true <->
  SFis_nan x = false /\ SFis_nan y = false /\ ~ rank_lt (SFrank y) (SFrank x).
Proof.
  unfold SFleb.
  destruct (SFis_nan x) eqn:Nx.
  { destruct x; try discriminate. simpl. split; [discriminate | intros [H _]; discriminate]. }
  destruct (SFis_nan y) eqn:Ny.
  { destruct y; try discriminate.
    destruct x; simpl; split; try discriminate; intros (_ & H & _); discriminate. }
  destruct (SFcompare_rank x y Nx Ny) as (c & -> & HLt & HGt & HEq).
  destruct c; split; try discriminate; intros H; auto.
  - repeat split; auto. intros G. apply HGt in G. discriminate.
  - repeat split; auto. intros G. apply HGt in G. discriminate.
  - exfalso. destruct H as (_ & _ & H). apply H. now apply HGt.
Qed.

Lemma is_nan_spec (x : float) : is_nan x = SFis_nan (Prim2SF x).
Proof.
  unfold is_nan. rewrite eqb_spec.
  destruct (SFis_nan (Prim2SF x)) eqn:N.
  - destruct (Prim2SF x); try discriminate. reflexivity.
  - apply negb_false_iff. apply SFeqb_rank. repeat split; auto.
    unfold rank_eq. destruct (SFrank (Prim2SF x)) as [[c e] m]. auto.
Qed.

(** Turns comparisons of floats in the goal and the hypotheses into facts
    about ranks, and leaves them to linear arithmetic. *)
Ltac float_order :=
  rewrite ?is_nan_spec, ?ltb_spec, ?leb_spec, ?eqb_spec in *;
  repeat match goal with
         | H : _ = false |- _ => apply not_true_iff_false in H
         | |- _ = false => apply not_true_iff_false; intro
         end;
  rewrite ?SFltb_rank, ?SFleb_rank, ?SFeqb_rank in *;
  repeat match goal with
         | |- context [SFrank ?x] =>
             let c := fresh "c" in let e := fresh "e" in let m := fresh "m" in
             destruct (SFrank x) as [[c e] m]
         | H : context [SFrank ?x] |- _ =>
             let c := fresh "c" in let e := fresh "e" in let m := fresh "m" in
             destruct (SFrank x) as [[c e] m]
         end;
  unfold rank_lt, rank_eq in *;
  repeat match goal with
         | |- context [SFis_nan ?x] => destruct (SFis_nan x)
         | H : context [SFis_nan ?x] |- _ => destruct (SFis_nan x)
         end;
  intuition (try discriminate; try congruence; try lia).

Lemma float_lt_asym (x y : float) :
  (x <? y)%float = true -> (y <? x)%float = false.
Proof. intros. float_order. Qed.

Lemma float_le_trans (x y z : float) :
  is_nan y = false ->
  (y <? x)%float = false -> (z <? y)%float = false -> (z <? x)%float = false.
Proof. intros. float_order. Qed.

Lemma float_lt_eq_absurd (x y k : float) :
  (y <? x)%float = true -> (y =? k)%float = true -> (x =? k)%float = true ->
  False.
Proof. intros. float_order. Qed.

Lemma float_le_antisym (a b : float) :
  is_nan a = false -> is_nan b = false ->
  (b <? a)%float = false -> (a <? b)%float = false -> (b =? a)%float = true.
Proof. intros. float_order. Qed.

Lemma float_eq_not_lt (a b : float) :
  (a =? b)%float = true -> (b <? a)%float = false.
Proof. intros. float_order. Qed.

Lemma float_eq_refl (a : float) : is_nan a = false -> (a =? a)%float = true.
Proof. intros. float_order. Qed.

Lemma float_gt_not_nan (a b : float) :
  (a <? b)%float = true -> is_nan b = false.
Proof. intros. float_order. Qed.

(** ** The derived fields *)

Lemma model_dump_Ok_inv (pow : c_pow) (p : Patient) (ex : list string) (d : doc) :
  model_dump pow p ex = Ok d ->
  exists b v, bmi pow p = Ok b /\ verdict pow p = Ok v /\
    d = Dict.exclude ex
          [ ("id", VStr (id p)); ("name", VStr (name p));
            ("city", VStr (city p)); ("age", VInt (age p));
            ("gender", VStr (gender p)); ("height", VFloat (height p));
            ("weight", VFloat (weight p));
            ("bmi", VFloat b); ("verdict", VStr v) ].
Proof.
  unfold model_dump. intros H.
  bind_inv H. bind_inv H. injection H as <-. eauto.
Qed.

Lemma create_patient_Ok_inv (pow : c_pow) (p : Patient) (f f' : file)
  (r : JSONResponse) :
  create_patient pow p f = (Ok r, f') ->
  exists d, Dict.get (id p) (load_data f) = None /\
    model_dump pow p ["id"] = Ok d /\
    f' = Some (Dict.set (id p) d (load_data f)) /\
    r = mkJSONResponse 201
          [ ("message", VStr "Patient created successfully");
            ("patient_id", VStr (id p)) ].
Proof.
  unfold create_patient, save_data. intros H.
  destruct (Dict.mem (id p) (load_data f)) eqn:M; [discriminate |].
  apply Dict_mem_get in M.
  destruct (model_dump pow p ["id"]) as [d | e]; [| discriminate].
  injection H as <- <-. eauto.
Qed.

Lemma update_patient_Ok_inv (pow : c_pow) (pid : string) (p : Patient)
  (f f' : file) (r : doc) :
  update_patient pow pid p f = (Ok r, f') ->
  exists d, Dict.get pid (load_data f) <> None /\
    model_dump pow p ["id"] = Ok d /\
    f' = Some (Dict.set pid d (load_data f)).
Proof.
  unfold update_patient, save_data. intros H.
  destruct (Dict.get pid (load_data f)) as [old |] eqn:G; [| discriminate].
  destruct (model_dump pow p ["id"]) as [d | e]; [| discriminate].
  injection H as _ <-. exists d. repeat split; congruence.
Qed.

(** ** What create and update persist *)

(** C1, counterexample.  Creating [patient_P001] in a missing file succeeds,
    and the value persisted under ["P001"] is not made of the six stored
    fields only: it also carries the keys ["bmi"] and ["verdict"]. *)
Lemma persisted_value_counterexample :
  exists r f' d,
    create_patient pow_square_once patient_P001 None = (Ok r, f') /\
    Dict.get "P001" (load_data f') = Some d /\
    Dict.keys d <> ["name"; "city"; "age"; "gender"; "height"; "weight"] /\
    Dict.mem "bmi" d = true /\
    Dict.mem "verdict" d = true.
Proof.
  eexists _, _, _. split; [vm_compute; reflexivity |].
  split; [vm_compute; reflexivity |].
  split; [intros H; vm_compute in H; discriminate |].
  split; reflexivity.
Qed.

(** C1, as amended.  After a successful create, and after a successful
    update, the value persisted under the patient ID holds the six stored
    fields followed by [bmi] and [verdict] as computed from the payload when
    it was written, and nothing else; the ID is not among its keys. *)
Theorem persisted_value_fields (pow : c_pow) :
  (forall (p : Patient) (f f' : file) (r : JSONResponse),
      create_patient pow p f = (Ok r, f') ->
      exists b v,
        bmi pow p = Ok b /\ verdict pow p = Ok v /\
        Dict.get (id p) (load_data f') =
          Some [ ("name", VStr (name p)); ("city", VStr (city p));
                 ("age", VInt (age p)); ("gender", VStr (gender p));
                 ("height", VFloat (height p)); ("weight", VFloat (weight p));
                 ("bmi", VFloat b); ("verdict", VStr v) ]) /\
  (forall (pid : string) (p : Patient) (f f' : file) (r : doc),
      update_patient pow pid p f = (Ok r, f') ->
      exists b v,
        bmi pow p = Ok b /\ verdict pow p = Ok v /\
        Dict.get pid (load_data f') =
          Some [ ("name", VStr (name p)); ("city", VStr (city p));
                 ("age", VInt (age p)); ("gender", VStr (gender p));
                 ("height", VFloat (height p)); ("weight", VFloat (weight p));
                 ("bmi", VFloat b); ("verdict", VStr v) ]).
Proof.
  split.
  - intros p f f' r H.
    apply create_patient_Ok_inv in H. destruct H as (d & _ & Hd & -> & _).
    apply model_dump_Ok_inv in Hd. destruct Hd as (b & v & Hb & Hv & ->).
    exists b, v. repeat split; auto.
    simpl. apply Dict_get_set_same.
  - intros pid p f f' r H.
    apply update_patient_Ok_inv in H. destruct H as (d & _ & Hd & ->).
    apply model_dump_Ok_inv in Hd. destruct Hd as (b & v & Hb & Hv & ->).
    exists b, v. repeat split; auto.
    simpl. apply Dict_get_set_same.
Qed.

Lemma persisted_value_fields_witness :
  exists b v,
    bmi pow_square_once patient_P001 = Ok b /\
    verdict pow_square_once patient_P001 = Ok v /\
    Dict.get "P001" (load_data file_P001) =
      Some [ ("name", VStr ""); ("city", VStr "Pune");
             ("age", VInt 25); ("gender", VStr "Male");
             ("height", VFloat 175); ("weight", VFloat 70);
             ("bmi", VFloat b); ("verdict", VStr v) ].
Proof.
  apply (proj1 (persisted_value_fields pow_square_once) patient_P001 None
           file_P001
           (mkJSONResponse 201
              [ ("message", VStr "Patient created successfully");
                ("patient_id", VStr "P001") ])).
  vm_compute. reflexivity.
Defined.

(** ** Rejected requests leave the file alone *)

(** C5.  Create with an ID that is already a key of the store fails with
    the 400 "already exists" error (the conflict error) and leaves the
    persisted file as it was. *)
Theorem create_existing_id_conflict (pow : c_pow) (p : Patient) (f : file) :
  Dict.mem (id p) (load_data f) = true ->
  create_patient pow p f =
    (Err (HTTPException 400 "Patient with this ID already exists"), f).
Proof.
  intros H. unfold create_patient. now rewrite H.
Qed.

Lemma create_existing_id_conflict_witness :
  create_patient pow_square_once patient_P001 file_P001 =
    (Err (HTTPException 400 "Patient with this ID already exists"),
     file_P001).
Proof.
  apply (create_existing_id_conflict pow_square_once patient_P001 file_P001).
  vm_compute. reflexivity.
Defined.

(** C6.  Update with an ID that is not a key of the store fails with the
    404 "not found" error and leaves the persisted file as it was. *)
Theorem update_missing_id_not_found
  (pow : c_pow) (pid : string) (p : Patient) (f : file) :
  Dict.mem pid (load_data f) = false ->
  update_patient pow pid p f =
    (Err (HTTPException 404 "Patient not found"), f).
Proof.
  intros H. apply Dict_mem_get in H. unfold update_patient. now rewrite H.
Qed.

Lemma update_missing_id_not_found_witness :
  update_patient pow_square_once "P002" patient_P001 file_P001 =
    (Err (HTTPException 404 "Patient not found"),
     file_P001).
Proof.
  apply (update_missing_id_not_found pow_square_once "P002" patient_P001
           file_P001).
  vm_compute. reflexivity.
Defined.

(** C10.  After a successful update whose payload carries an ID other than
    the one in the path, the payload's six stored fields, with the [bmi] and
    [verdict] derived from them, sit under the path's ID; the entry under
    the payload's ID is what it was (absent if it was absent), every other
    key keeps its value, and no key is added or removed. *)
Theorem update_stores_under_path_id
  (pow : c_pow) (pid : string) (p : Patient) (f f' : file) (r : doc) :
  update_patient pow pid p f = (Ok r, f') ->
  id p <> pid ->
  (exists b v,
     bmi pow p = Ok b /\ verdict pow p = Ok v /\
     Dict.get pid (load_data f') =
       Some [ ("name", VStr (name p)); ("city", VStr (city p));
              ("age", VInt (age p)); ("gender", VStr (gender p));
              ("height", VFloat (height p)); ("weight", VFloat (weight p));
              ("bmi", VFloat b); ("verdict", VStr v) ]) /\
  Dict.get (id p) (load_data f') = Dict.get (id p) (load_data f) /\
  (forall k, k <> pid ->
             Dict.get k (load_data f') = Dict.get k (load_data f)) /\
  Dict.keys (load_data f') = Dict.keys (load_data f).
Proof.
  intros H Hne.
  apply update_patient_Ok_inv in H. destruct H as (d & Hin & Hd & ->).
  apply model_dump_Ok_inv in Hd. destruct Hd as (b & v & Hb & Hv & ->).
  simpl load_data. repeat split.
  - exists b, v. repeat split; auto. apply Dict_get_set_same.
  - now apply Dict_get_set_other.
  - intros k Hk. now apply Dict_get_set_other.
  - now apply Dict_keys_set_present.
Qed.

Lemma update_stores_under_path_id_witness :
  (exists b v,
     bmi pow_square_once patient_P002 = Ok b /\
     verdict pow_square_once patient_P002 = Ok v /\
     Dict.get "P001"
       (load_data (snd (update_patient pow_square_once "P001" patient_P002
                          file_P001))) =
       Some [ ("name", VStr "Asha"); ("city", VStr "");
              ("age", VInt 31); ("gender", VStr "Female");
              ("height", VFloat 160); ("weight", VFloat 80);
              ("bmi", VFloat b); ("verdict", VStr v) ]) /\
  Dict.get "P002"
    (load_data (snd (update_patient pow_square_once "P001" patient_P002
                       file_P001))) =
    Dict.get "P002" (load_data file_P001) /\
  (forall k, k <> "P001" ->
     Dict.get k
       (load_data (snd (update_patient pow_square_once "P001" patient_P002
                          file_P001))) =
     Dict.get k (load_data file_P001)) /\
  Dict.keys
    (load_data (snd (update_patient pow_square_once "P001" patient_P002
                       file_P001))) =
    Dict.keys (load_data file_P001).
Proof.
  apply (update_stores_under_path_id pow_square_once "P001" patient_P002
           file_P001
           (snd (update_patient pow_square_once "P001" patient_P002 file_P001))
           [("message", VStr "Patient updated successfully")]).
  - vm_compute. reflexivity.
  - simpl. discriminate.
Defined.

(** ** A missing file *)

(** C9.  When the file does not exist [load_data] returns the empty mapping,
    and every handler answers as it does on a file holding the empty
    mapping: list returns the empty mapping, get, update and delete answer
    404, sort with valid arguments returns the empty list, and create
    answers and persists the same. *)
Theorem load_data_missing_file (pow : c_pow)
  (str_as_int : string -> option Z) (str_as_float : string -> option float) :
  load_data None = [] /\
  view_patients None = (Ok [], None) /\
  (forall pid, fst (get_patient pow str_as_int str_as_float pid None) =
               fst (get_patient pow str_as_int str_as_float pid (Some [])) /\
               get_patient pow str_as_int str_as_float pid None =
               (Err (HTTPException 404 "Patient not found"), None)) /\
  (forall p, fst (create_patient pow p None) =
             fst (create_patient pow p (Some [])) /\
             load_data (snd (create_patient pow p None)) =
             load_data (snd (create_patient pow p (Some [])))) /\
  (forall pid p, fst (update_patient pow pid p None) =
                 fst (update_patient pow pid p (Some [])) /\
                 update_patient pow pid p None =
                 (Err (HTTPException 404 "Patient not found"), None)) /\
  (forall pid, fst (delete_patient pid None) = fst (delete_patient pid (Some [])) /\
               delete_patient pid None =
               (Err (HTTPException 404 "Patient not found"), None)) /\
  (forall sort_by order,
      fst (sort_patients pow str_as_int str_as_float sort_by order None) =
      fst (sort_patients pow str_as_int str_as_float sort_by order (Some [])) /\
      (In sort_by valid_fields ->
       In order [None; Some "asc"; Some "desc"] ->
       sort_patients pow str_as_int str_as_float sort_by order None =
         (Ok [], None))).
Proof.
  split; [reflexivity |]. split; [reflexivity |].
  split; [intros pid; split; reflexivity |].
  split.
  { intros p. unfold create_patient. simpl.
    destruct (model_dump pow p ["id"]); split; reflexivity. }
  split; [intros pid p; split; reflexivity |].
  split; [intros pid; split; reflexivity |].
  intros sort_by order. split.
  - unfold sort_patients.
    destruct (negb (existsb (String.eqb sort_by) valid_fields)); auto.
    destruct (negb (existsb _ ["asc"; "desc"])); auto.
  - intros Hs Ho. unfold sort_patients.
    assert (Es : existsb (String.eqb sort_by) valid_fields = true).
    { apply existsb_exists. exists sort_by. split; auto. apply String.eqb_refl. }
    rewrite Es. simpl in Ho.
    destruct Ho as [<- | [<- | [<- | []]]]; reflexivity.
Qed.

Lemma load_data_missing_file_witness :
  sort_patients pow_square_once no_str_as_int no_str_as_float "bmi"
    (Some "desc") None = (Ok [], None).
Proof.
  apply (proj2 (proj2 (proj2 (proj2 (proj2 (proj2 (proj2
           (load_data_missing_file pow_square_once
              no_str_as_int no_str_as_float))))))
           "bmi" (Some "desc"))).
  - simpl. auto.
  - simpl. auto.
Defined.

(** ** The sign of a quotient

    Rounding keeps the mantissa of a non-negative quotient non-negative, so
    a positive float divided by a positive one is zero, positive or
    infinite, never negative and never NaN. *)

Lemma float_eq_not_nan (a b : float) :
  (a =? b)%float = true -> is_nan a = false.
Proof. intros. float_order. Qed.

Lemma shr_1_nonneg (mrs : shr_record) : 0 <= shr_m mrs -> 0 <= shr_m (shr_1 mrs).
Proof.
  destruct mrs as [m r s]. simpl.
  destruct m as [| [p | p |] | p]; simpl; intros H; lia.
Qed.

Lemma iter_pos_shr_1_nonneg (n : positive) (mrs : shr_record) :
  0 <= shr_m mrs -> 0 <= shr_m (iter_pos shr_1 n mrs).
Proof.
  revert mrs. induction n as [n IH | n IH |]; simpl; intros mrs H.
  - apply IH, IH, shr_1_nonneg, H.
  - apply IH, IH, H.
  - apply shr_1_nonneg, H.
Qed.

Lemma shr_fexp_nonneg (m e : Z) (l : location) :
  0 <= m -> 0 <= shr_m (fst (shr_fexp prec emax m e l)).
Proof.
  intros H. unfold shr_fexp, shr.
  assert (H0 : 0 <= shr_m (shr_record_of_loc m l)).
  { destruct l as [| []]; exact H. }
  destruct (fexp prec emax (Zdigits2 m + e) - e); simpl; auto.
  now apply iter_pos_shr_1_nonneg.
Qed.

Lemma round_nearest_even_nonneg (m : Z) (l : location) :
  0 <= m -> 0 <= round_nearest_even m l.
Proof.
  intros H. unfold round_nearest_even.
  destruct l as [| []]; try lia. destruct (Z.even m); lia.
Qed.

Lemma binary_round_aux_sign (sx : bool) (mx ex : Z) (lx : location) :
  0 <= mx ->
  binary_round_aux prec emax sx mx ex lx = S754_zero sx \/
  binary_round_aux prec emax sx mx ex lx = S754_infinity sx \/
  exists m e, binary_round_aux prec emax sx mx ex lx = S754_finite sx m e.
Proof.
  intros H. unfold binary_round_aux.
  pose proof (shr_fexp_nonneg mx ex lx H) as H1.
  destruct (shr_fexp prec emax mx ex lx) as [mrs' e']. simpl in H1.
  pose proof (shr_fexp_nonneg _ e' loc_Exact
                (round_nearest_even_nonneg _ (loc_of_shr_record mrs') H1)) as H2.
  destruct (shr_fexp prec emax _ e' loc_Exact) as [mrs'' e'']. simpl in H2.
  destruct (shr_m mrs'') as [| m | m]; [auto | | lia].
  destruct (e'' <=? emax - prec); eauto.
Qed.

Lemma SFdiv_core_binary_nonneg (m1 m2 : positive) (e1 e2 : Z) :
  0 <= fst (fst (SFdiv_core_binary prec emax (Zpos m1) e1 (Zpos m2) e2)).
Proof.
  unfold SFdiv_core_binary.
  set (s := _ - _ - Z.min _ _).
  set (m' := match s with Z0 => Zpos m1 | Zpos _ => Z.shiftl (Zpos m1) s
                     | Zneg _ => 0 end).
  assert (Hm : 0 <= m').
  { unfold m'. destruct s; try lia. apply Z.shiftl_nonneg. lia. }
  pose proof (Z.div_pos m' (Zpos m2) Hm eq_refl) as Hq.
  unfold Z.div in Hq.
  destruct (Z.div_eucl m' (Zpos m2)) as [q r]. exact Hq.
Qed.

Lemma float_gt_zero_cases (x : float) :
  (0 <? x)%float = true ->
  Prim2SF x = S754_infinity false \/
  exists m e, Prim2SF x = S754_finite false m e.
Proof.
  rewrite ltb_spec. change (Prim2SF 0) with (S754_zero false).
  destruct (Prim2SF x) as [s | [|] | | [|] m e]; try discriminate; eauto.
Qed.

Lemma float_div_positive (x y : float) :
  (0 <? x)%float = true -> (0 <? y)%float = true ->
  is_infinity y = false ->
  is_zero (x / y) = false ->
  (0 <? x / y)%float = true.
Proof.
  intros Hx Hy Hi Hz. unfold is_zero, is_infinity in *.
  rewrite eqb_spec in Hz, Hi. rewrite ltb_spec.
  rewrite abs_spec in Hi. rewrite div_spec in *.
  change (Prim2SF 0) with (S754_zero false) in *.
  change (Prim2SF zero) with (S754_zero false) in *.
  change (Prim2SF infinity) with (S754_infinity false) in *.
  destruct (float_gt_zero_cases y Hy) as [Ey | (my & ey & Ey)];
    rewrite Ey in *; [discriminate Hi |].
  destruct (float_gt_zero_cases x Hx) as [Ex | (mx & ex & Ex)];
    rewrite Ex in *; [reflexivity |].
  unfold SF64div, SFdiv in *.
  pose proof (SFdiv_core_binary_nonneg mx my ex ey) as Hq.
  destruct (SFdiv_core_binary prec emax (Zpos mx) ex (Zpos my) ey)
    as [[mz ez] lz].
  simpl in Hq.
  destruct (binary_round_aux_sign (xorb false false) mz ez lz Hq)
    as [E | [E | (m & e & E)]]; rewrite E in *; simpl in *;
    try reflexivity; discriminate.
Qed.

Lemma float_positive_infinite (x : float) :
  (0 <? x)%float = true -> is_infinity x = true -> x = infinity.
Proof.
  intros Hx Hi. unfold is_infinity in Hi.
  rewrite eqb_spec, abs_spec in Hi.
  change (Prim2SF infinity) with (S754_infinity false) in Hi.
  apply Prim2SF_inj. change (Prim2SF infinity) with (S754_infinity false).
  destruct (float_gt_zero_cases x Hx) as [E | (m & e & E)];
    rewrite E in *; [reflexivity | discriminate].
Qed.

Lemma float_positive_not_zero (x : float) :
  (0 <? x)%float = true -> is_zero x = false.
Proof. unfold is_zero. change zero with 0%float. intros. float_order. Qed.

(** ** The square of a positive float *)

Lemma float_pow_two_square (pow : c_pow) (m sq : float) :
  (0 <? m)%float = true ->
  float_pow_two pow m = Ok sq ->
  square_of pow m sq.
Proof.
  intros Hm. unfold float_pow_two, square_of.
  rewrite (float_gt_not_nan 0 m Hm).
  destruct (is_infinity m) eqn:Hi.
  - rewrite (float_positive_infinite m Hm Hi).
    intros H. injection H as <-. reflexivity.
  - rewrite (float_positive_not_zero m Hm).
    change zero with 0%float. rewrite (float_lt_asym 0 m Hm).
    change one with 1%float.
    destruct (m =? 1)%float.
    + intros H. now injection H as <-.
    + destruct (pow m two) as [ix e]. simpl.
      destruct (adjust_erange ix e); intros H; try discriminate.
      now injection H as <-.
Qed.

Lemma square_of_float_pow_two (pow : c_pow) (m sq : float) :
  (0 <? m)%float = true ->
  square_of pow m sq ->
  adjust_erange sq (snd (pow m two)) = ENONE ->
  float_pow_two pow m = Ok sq.
Proof.
  intros Hm. unfold float_pow_two, square_of.
  rewrite (float_gt_not_nan 0 m Hm).
  destruct (is_infinity m) eqn:Hi.
  - rewrite (float_positive_infinite m Hm Hi).
    change (infinity =? 1)%float with false. simpl. now intros ->.
  - rewrite (float_positive_not_zero m Hm).
    change zero with 0%float. rewrite (float_lt_asym 0 m Hm).
    change one with 1%float.
    destruct (m =? 1)%float.
    + now intros ->.
    + destruct (pow m two) as [ix e]. simpl. intros -> ->. reflexivity.
Qed.

Lemma float_zero_not_infinite (x : float) :
  is_zero x = true -> is_infinity x = false.
Proof.
  unfold is_zero, is_infinity. rewrite !eqb_spec, abs_spec.
  change (Prim2SF zero) with (S754_zero false).
  change (Prim2SF infinity) with (S754_infinity false).
  destruct (Prim2SF x) as [s | [|] | | s m e]; try discriminate; reflexivity.
Qed.

Lemma metres_positive (pow : c_pow) (p : Patient) (b : float) :
  (0 <? height p)%float = true ->
  bmi pow p = Ok b ->
  (0 <? height p / 100)%float = true.
Proof.
  intros Hh Hb. apply float_div_positive; try reflexivity; auto.
  destruct (is_zero (height p / 100)) eqn:Hz; [| reflexivity].
  unfold bmi, float_div in Hb. change (is_zero 100) with false in Hb.
  simpl in Hb. unfold float_pow_two in Hb.
  rewrite (float_zero_not_infinite _ Hz), Hz in Hb.
  assert (Hn : is_nan (height p / 100) = false).
  { unfold is_zero in Hz. exact (float_eq_not_nan _ _ Hz). }
  rewrite Hn in Hb. simpl in Hb.
  change (is_zero zero) with true in Hb. discriminate.
Qed.

(** ** Rounding and the body mass index *)

Lemma Qlt_bool_iff (x y : Q) : Qlt_bool x y = true <-> (x < y)%Q.
Proof.
  unfold Qlt_bool. rewrite negb_true_iff. split; intros H.
  - apply Qnot_le_lt. intros L. apply Qle_bool_iff in L. congruence.
  - destruct (Qle_bool y x) eqn:E; auto.
    apply Qle_bool_iff in E. apply Qlt_not_le in H. contradiction.
Qed.

Lemma Qlt_bool_false (x y : Q) : Qlt_bool x y = false <-> (y <= x)%Q.
Proof.
  unfold Qlt_bool. rewrite negb_false_iff. apply Qle_bool_iff.
Qed.

Lemma round_half_even_near (x : Q) :
  (Qabs (inject_Z (round_half_even x) - x) <= 1 # 2)%Q.
Proof.
  pose proof (Qfloor_le x) as Hlo.
  pose proof (Qlt_floor x) as Hhi.
  rewrite inject_Z_plus in Hhi. change (inject_Z 1) with 1%Q in Hhi.
  apply Qabs_Qle_condition. unfold round_half_even.
  destruct (Qlt_bool (x - inject_Z (Qfloor x)) (1 # 2)) eqn:E1.
  - apply Qlt_bool_iff in E1. split; lra.
  - apply Qlt_bool_false in E1.
    destruct (Qlt_bool (1 # 2) (x - inject_Z (Qfloor x))) eqn:E2.
    + rewrite inject_Z_plus. change (inject_Z 1) with 1%Q. split; lra.
    + apply Qlt_bool_false in E2.
      destruct (Z.even (Qfloor x)).
      * split; lra.
      * rewrite inject_Z_plus. change (inject_Z 1) with 1%Q. split; lra.
Qed.

Lemma round_half_even_tie (x : Q) :
  (Qabs (inject_Z (round_half_even x) - x) == 1 # 2)%Q ->
  Z.even (round_half_even x) = true.
Proof.
  pose proof (Qfloor_le x) as Hlo.
  pose proof (Qlt_floor x) as Hhi.
  rewrite inject_Z_plus in Hhi. change (inject_Z 1) with 1%Q in Hhi.
  unfold round_half_even.
  destruct (Qlt_bool (x - inject_Z (Qfloor x)) (1 # 2)) eqn:E1.
  - apply Qlt_bool_iff in E1. intros T. exfalso.
    rewrite Qabs_neg in T by lra. lra.
  - apply Qlt_bool_false in E1.
    destruct (Qlt_bool (1 # 2) (x - inject_Z (Qfloor x))) eqn:E2.
    + apply Qlt_bool_iff in E2. intros T. exfalso.
      rewrite inject_Z_plus in T. change (inject_Z 1) with 1%Q in T.
      rewrite Qabs_pos in T by lra. lra.
    + destruct (Z.even (Qfloor x)) eqn:Ev; intros _; [exact Ev |].
      rewrite Z.add_1_r, Z.even_succ, <- Z.negb_even, Ev. reflexivity.
Qed.

Lemma py_round_rounded (q : float) : rounded_to_hundredths q (py_round q 2).
Proof.
  unfold rounded_to_hundredths, py_round.
  destruct (Prim2SF q) as [s | s | | s m e]; try reflexivity.
  change (Z.to_pos (10 ^ Z.of_nat 2)) with 100%positive.
  change (inject_Z (Zpos 100)) with 100%Q.
  exists (round_half_even (magnitude m e * 100)).
  split; [apply round_half_even_near |].
  split; [apply round_half_even_tie | reflexivity].
Qed.

Lemma bmi_Ok_inv (pow : c_pow) (p : Patient) (b : float) :
  bmi pow p = Ok b ->
  exists sq,
    float_pow_two pow (height p / 100) = Ok sq /\
    is_zero sq = false /\
    b = py_round (weight p / sq) 2.
Proof.
  unfold bmi, float_div. change (is_zero 100) with false. simpl.
  destruct (float_pow_two pow (height p / 100)) as [sq |]; [| discriminate].
  simpl. destruct (is_zero sq) eqn:Hz; [discriminate |]. simpl.
  intros H. injection H as <-. exists sq. auto.
Qed.



(** The same holds whatever the library power is: it is not reached. *)
Lemma bmi_tiny_height (pow : c_pow) (w : float) :
  bmi pow (patient_of_size tiny_height w) = Err ZeroDivisionError.
Proof.
  reflexivity.
Qed.



(** Concrete values.  At 160 cm and 56 kg the index is 21.87; at one metre
    and 2.675 kg it is 2.67, the float 2.675 lying below the decimal; a
    height of 1e-170 makes the square underflow and the division raise; a
    height of 1e200 makes the square overflow; an infinite height gives 0,
    and with an infinite weight NaN, whose verdict is Underweight. *)

Example bmi_160_56 :
  bmi pow_square_once (patient_of_size 160 56) = Ok 0x1.5deb851eb851fp+4%float.
Proof. vm_compute. reflexivity. Qed.

Example bmi_100_2_675 :
  bmi pow_square_once (patient_of_size 100 0x1.5666666666666p+1) =
    Ok 0x1.55c28f5c28f5cp+1%float.
Proof. vm_compute. reflexivity. Qed.

Example bmi_height_1e_170 :
  bmi pow_square_once (patient_of_size 0x1.3529ba7d19eafp-565 70) =
    Err ZeroDivisionError.
Proof. vm_compute. reflexivity. Qed.

Example bmi_height_1e200 :
  bmi pow_square_once (patient_of_size 0x1.4e718d7d7625ap+664 70) =
    Err OverflowError.
Proof. vm_compute. reflexivity. Qed.

Example bmi_height_infinite :
  bmi pow_square_once (patient_of_size infinity 70) = Ok 0%float /\
  bmi pow_square_once (patient_of_size infinity infinity) = Ok nan.
Proof. split; vm_compute; reflexivity. Qed.

(** ** The verdict *)

Lemma verdict_cascade (pow : c_pow) (p : Patient) (b : float) :
  bmi pow p = Ok b ->
  verdict pow p =
    Ok (if (30 <=? b)%float then "Obese"
        else if (25 <=? b)%float then "Overweight"
        else if (18.5 <=? b)%float then "Normal"
        else "Underweight").
Proof.
  intros Hb. unfold verdict. rewrite Hb. simpl.
  destruct (30 <=? b)%float; [reflexivity |].
  destruct (25 <=? b)%float; [reflexivity |].
  destruct (18.5 <=? b)%float; reflexivity.
Qed.

Lemma verdict_Ok (pow : c_pow) (p : Patient) (b : float) :
  bmi pow p = Ok b -> exists v, verdict pow p = Ok v.
Proof.
  intros Hb. rewrite (verdict_cascade pow p b Hb). eauto.
Qed.

Example verdict_of_nan :
  verdict pow_square_once (patient_of_size infinity infinity) =
    Ok "Underweight".
Proof. vm_compute. reflexivity. Qed.

Lemma float_lt_not_le (b c : float) :
  (b <? c)%float = true -> (c <=? b)%float = false.
Proof. intros. float_order. Qed.

Lemma float_lt_le_not_le (b c d : float) :
  (b <? c)%float = true -> (c <=? d)%float = true -> (d <=? b)%float = false.
Proof. intros. float_order. Qed.

Lemma float_eq_le (b c : float) :
  (b =? c)%float = true -> (c <=? b)%float = true.
Proof. intros. float_order. Qed.

Lemma float_eq_lt_not_le (b c d : float) :
  (b =? c)%float = true -> (c <? d)%float = true -> (d <=? b)%float = false.
Proof. intros. float_order. Qed.

(** C3.  Whenever the body mass index of a record is defined, its verdict
    follows the threshold table: Obese from 30 up, Overweight from 25 up to
    30, Normal from 18.5 up to 25, Underweight below 18.5; the boundary
    values 18.5, 25 and 30 fall in Normal, Overweight and Obese. *)
Theorem verdict_thresholds (pow : c_pow) (p : Patient) (b : float) :
  bmi pow p = Ok b ->
  ((30 <=? b)%float = true -> verdict pow p = Ok "Obese") /\
  ((25 <=? b)%float = true /\ (b <? 30)%float = true ->
   verdict pow p = Ok "Overweight") /\
  ((18.5 <=? b)%float = true /\ (b <? 25)%float = true ->
   verdict pow p = Ok "Normal") /\
  ((b <? 18.5)%float = true -> verdict pow p = Ok "Underweight") /\
  ((b =? 18.5)%float = true -> verdict pow p = Ok "Normal") /\
  ((b =? 25)%float = true -> verdict pow p = Ok "Overweight") /\
  ((b =? 30)%float = true -> verdict pow p = Ok "Obese").
Proof.
  intros Hb. rewrite (verdict_cascade pow p b Hb).
  assert (L1 : (18.5 <=? 25)%float = true) by reflexivity.
  assert (L2 : (25 <=? 30)%float = true) by reflexivity.
  assert (L3 : (18.5 <=? 30)%float = true) by reflexivity.
  assert (S1 : (18.5 <? 25)%float = true) by reflexivity.
  assert (S2 : (25 <? 30)%float = true) by reflexivity.
  assert (S3 : (18.5 <? 30)%float = true) by reflexivity.
  repeat split.
  - intros ->. reflexivity.
  - intros [H25 H30].
    rewrite (float_lt_not_le _ _ H30), H25. reflexivity.
  - intros [H18 H25].
    rewrite (float_lt_le_not_le b 25 30 H25 L2), (float_lt_not_le _ _ H25), H18.
    reflexivity.
  - intros H18.
    rewrite (float_lt_le_not_le b 18.5 30 H18 L3), (float_lt_le_not_le b 18.5 25 H18 L1),
      (float_lt_not_le _ _ H18). reflexivity.
  - intros E.
    rewrite (float_eq_lt_not_le b 18.5 30 E S3), (float_eq_lt_not_le b 18.5 25 E S1),
      (float_eq_le _ _ E). reflexivity.
  - intros E.
    rewrite (float_eq_lt_not_le b 25 30 E S2), (float_eq_le _ _ E). reflexivity.
  - intros E. rewrite (float_eq_le _ _ E). reflexivity.
Qed.

Lemma verdict_thresholds_witness :
  ((30 <=? 18.5)%float = true ->
   verdict pow_square_once (patient_of_size 100 18.5) = Ok "Obese") /\
  ((25 <=? 18.5)%float = true /\ (18.5 <? 30)%float = true ->
   verdict pow_square_once (patient_of_size 100 18.5) = Ok "Overweight") /\
  ((18.5 <=? 18.5)%float = true /\ (18.5 <? 25)%float = true ->
   verdict pow_square_once (patient_of_size 100 18.5) = Ok "Normal") /\
  ((18.5 <? 18.5)%float = true ->
   verdict pow_square_once (patient_of_size 100 18.5) = Ok "Underweight") /\
  ((18.5 =? 18.5)%float = true ->
   verdict pow_square_once (patient_of_size 100 18.5) = Ok "Normal") /\
  ((18.5 =? 25)%float = true ->
   verdict pow_square_once (patient_of_size 100 18.5) = Ok "Overweight") /\
  ((18.5 =? 30)%float = true ->
   verdict pow_square_once (patient_of_size 100 18.5) = Ok "Obese").
Proof.
  apply (verdict_thresholds pow_square_once (patient_of_size 100 18.5) 18.5).
  vm_compute. reflexivity.
Defined.

Example verdict_at_18_5 :
  bmi pow_square_once (patient_of_size 100 18.5) = Ok 18.5%float /\
  verdict pow_square_once (patient_of_size 100 18.5) = Ok "Normal".
Proof. split; vm_compute; reflexivity. Qed.

Example verdict_at_25 :
  bmi pow_square_once (patient_of_size 100 25) = Ok 25%float /\
  verdict pow_square_once (patient_of_size 100 25) = Ok "Overweight".
Proof. split; vm_compute; reflexivity. Qed.

Example verdict_at_30 :
  bmi pow_square_once (patient_of_size 100 30) = Ok 30%float /\
  verdict pow_square_once (patient_of_size 100 30) = Ok "Obese".
Proof. split; vm_compute; reflexivity. Qed.

Example verdict_below_18_5 :
  bmi pow_square_once (patient_of_size 100 0x1.27d70a3d70a3dp+4) =
    Ok 0x1.27d70a3d70a3dp+4%float /\
  verdict pow_square_once (patient_of_size 100 0x1.27d70a3d70a3dp+4) =
    Ok "Underweight".
Proof. split; vm_compute; reflexivity. Qed.

Example verdict_160_63_9872 :
  verdict pow_square_once (patient_of_size 160 0x1.ffe5c91d14e3cp+5) =
    Ok "Normal".
Proof. vm_compute. reflexivity. Qed.

(** ** Validation *)

Lemma gt_int_Ok_inv (bound n m : Z) :
  gt_int bound n = Ok m -> m = n /\ (bound <? n) = true.
Proof.
  unfold gt_int. destruct (bound <? n); [| discriminate].
  intros H. injection H as <-. auto.
Qed.

Lemma gt_float_Ok_inv (bound x y : float) :
  gt_float bound x = Ok y -> y = x /\ (bound <? x)%float = true.
Proof.
  unfold gt_float. destruct (bound <? x)%float; [| discriminate].
  intros H. injection H as <-. auto.
Qed.

Lemma model_dump_of_bmi (pow : c_pow) (p : Patient) (b : float)
  (ex : list string) :
  bmi pow p = Ok b ->
  model_dump pow p ex =
    Ok (Dict.exclude ex
          [ ("id", VStr (id p)); ("name", VStr (name p));
            ("city", VStr (city p)); ("age", VInt (age p));
            ("gender", VStr (gender p)); ("height", VFloat (height p));
            ("weight", VFloat (weight p));
            ("bmi", VFloat b);
            ("verdict",
             VStr (if (30 <=? b)%float then "Obese"
                   else if (25 <=? b)%float then "Overweight"
                   else if (18.5 <=? b)%float then "Normal"
                   else "Underweight")) ]).
Proof.
  intros Hb. unfold model_dump.
  rewrite (verdict_cascade pow p b Hb), Hb. reflexivity.
Qed.

Section ServiceProperties.

Variable pow : c_pow.
Variable str_as_int : string -> option Z.
Variable str_as_float : string -> option float.

Lemma Patient_init_Ok_inv (kwargs : doc) (p : Patient) :
  Patient_init str_as_int str_as_float kwargs = Ok p ->
  (0 <? age p) = true /\
  (0 <? height p)%float = true /\
  (0 <? weight p)%float = true.
Proof.
  unfold Patient_init. intros H.
  bind_inv H. bind_inv H. bind_inv H.
  apply bind_Ok_inv in H. destruct H as (a' & Hage & H).
  bind_inv H.
  apply bind_Ok_inv in H. destruct H as (h' & Hh & H).
  apply bind_Ok_inv in H. destruct H as (w' & Hw & H).
  injection H as <-. simpl.
  bind_inv Hage. bind_inv Hage.
  apply gt_int_Ok_inv in Hage. destruct Hage as [-> Hage].
  bind_inv Hh. bind_inv Hh.
  apply gt_float_Ok_inv in Hh. destruct Hh as [-> Hh].
  bind_inv Hw. bind_inv Hw.
  apply gt_float_Ok_inv in Hw. destruct Hw as [-> Hw].
  auto.
Qed.


Lemma Patient_of_entry_dump (p : Patient) (d : doc) :
  (0 <? age p) = true ->
  (0 <? height p)%float = true ->
  (0 <? weight p)%float = true ->
  model_dump pow p ["id"] = Ok d ->
  Patient_of_entry str_as_int str_as_float (id p) d = Ok p.
Proof.
  intros Ha Hh Hw Hd.
  apply model_dump_Ok_inv in Hd. destruct Hd as (b & v & _ & _ & ->).
  unfold Patient_of_entry, Patient_init. cbn.
  unfold gt_int, gt_float. rewrite Ha, Hh, Hw. cbn.
  destruct p; reflexivity.
Qed.

(** C4, as amended.  A payload whose name or city is the empty string, with
    every field present and of its declared type, is judged on its numbers
    alone: construction succeeds, keeping the empty string, when age, height
    and weight are all positive, and create then proceeds with that record;
    it fails with a validation error, the file untouched, otherwise. *)
Theorem empty_name_city_accepted
  (kwargs : doc) (i n c g : string) (a : Z) (h w : float) (f : file) :
  n = "" \/ c = "" ->
  Dict.get "id" kwargs = Some (VStr i) ->
  Dict.get "name" kwargs = Some (VStr n) ->
  Dict.get "city" kwargs = Some (VStr c) ->
  Dict.get "age" kwargs = Some (VInt a) ->
  Dict.get "gender" kwargs = Some (VStr g) ->
  Dict.get "height" kwargs = Some (VFloat h) ->
  Dict.get "weight" kwargs = Some (VFloat w) ->
  (0 < a /\ (0 <? h)%float = true /\ (0 <? w)%float = true ->
   Patient_init str_as_int str_as_float kwargs = Ok (mkPatient i n c a g h w) /\
   post_create pow str_as_int str_as_float kwargs f =
     create_patient pow (mkPatient i n c a g h w) f) /\
  (~ (0 < a /\ (0 <? h)%float = true /\ (0 <? w)%float = true) ->
   Patient_init str_as_int str_as_float kwargs = Err ValidationError /\
   post_create pow str_as_int str_as_float kwargs f = (Err ValidationError, f)).
Proof.
  intros _ Hi Hn Hc Ha Hg Hh Hw.
  assert (E : Patient_init str_as_int str_as_float kwargs =
              if (0 <? a) && (0 <? h)%float && (0 <? w)%float
              then Ok (mkPatient i n c a g h w) else Err ValidationError).
  { unfold Patient_init, required.
    rewrite Hi, Hn, Hc, Ha, Hg, Hh, Hw. simpl.
    unfold gt_int, gt_float.
    destruct (0 <? a); simpl; [| reflexivity].
    destruct (0 <? h)%float; simpl; [| reflexivity].
    destruct (0 <? w)%float; reflexivity. }
  unfold post_create. rewrite E. clear E.
  split.
  - intros (Pa & Ph & Pw).
    apply Z.ltb_lt in Pa.
    rewrite Pa, Ph, Pw. simpl. auto.
  - intros N.
    destruct (0 <? a) eqn:Pa; simpl; auto.
    destruct (0 <? h)%float eqn:Ph; simpl; auto.
    destruct (0 <? w)%float eqn:Pw; simpl; auto.
    exfalso. apply N.
    apply Z.ltb_lt in Pa. auto.
Qed.

(** C8, as amended.  When a payload validates to a record whose ID is not
    yet in the store and whose body mass index is defined, create answers
    201 with that ID, and a get of the ID on the file it leaves returns the
    record's seven submitted fields followed by the derived fields: the
    body mass index, which is the weight divided by the square of the
    height in metres and rounded to two decimals, and the verdict the
    threshold table gives for it. *)
Theorem create_then_get (body : doc) (p : Patient) (f : file) (b : float) :
  Patient_init str_as_int str_as_float body = Ok p ->
  Dict.mem (id p) (load_data f) = false ->
  bmi pow p = Ok b ->
  exists f' v,
    post_create pow str_as_int str_as_float body f =
      (Ok (mkJSONResponse 201
             [ ("message", VStr "Patient created successfully");
               ("patient_id", VStr (id p)) ]), f') /\
    get_patient pow str_as_int str_as_float (id p) f' =
      (Ok [ ("id", VStr (id p)); ("name", VStr (name p));
            ("city", VStr (city p)); ("age", VInt (age p));
            ("gender", VStr (gender p)); ("height", VFloat (height p));
            ("weight", VFloat (weight p));
            ("bmi", VFloat b); ("verdict", VStr v) ], f') /\
    (exists sq,
        square_of pow (height p / 100) sq /\
        is_zero sq = false /\
        rounded_to_hundredths (weight p / sq) b) /\
    v = (if (30 <=? b)%float then "Obese"
         else if (25 <=? b)%float then "Overweight"
         else if (18.5 <=? b)%float then "Normal"
         else "Underweight").
Proof.
  intros Hinit Hmem Hb.
  destruct (Patient_init_Ok_inv body p Hinit) as (Va & Vh & Vw).
  pose proof (model_dump_of_bmi pow p b ["id"] Hb) as Hd.
  pose proof (model_dump_of_bmi pow p b [] Hb) as Hfull.
  eexists _, _. split.
  { unfold post_create. rewrite Hinit.
    unfold create_patient. rewrite Hmem, Hd. reflexivity. }
  split.
  { unfold get_patient, save_data, load_data at 1.
    rewrite Dict_get_set_same.
    rewrite (Patient_of_entry_dump p _ Va Vh Vw Hd).
    simpl. rewrite Hfull. reflexivity. }
  split; [| reflexivity].
  pose proof (metres_positive pow p b Vh Hb) as Hm.
  destruct (bmi_Ok_inv pow p b Hb) as (sq & Hsq & Hz & ->).
  exists sq. split; [now apply float_pow_two_square |].
  split; [exact Hz | apply py_round_rounded].
Qed.

End ServiceProperties.

(** C4, counterexample.  A body whose name and city are both empty is not
    rejected: construction returns a record, and create writes it to the
    file. *)
Lemma empty_name_city_counterexample :
  Patient_init no_str_as_int no_str_as_float body_empty_names =
    Ok (mkPatient "P003" "" "" 52 "Female" 160 64) /\
  Patient_init no_str_as_int no_str_as_float body_empty_names <>
    Err ValidationError /\
  Dict.mem "P003"
    (load_data (snd (post_create pow_square_once no_str_as_int no_str_as_float
                       body_empty_names None))) = true.
Proof.
  split; [vm_compute; reflexivity |].
  split; [vm_compute; discriminate |].
  vm_compute. reflexivity.
Qed.

Lemma empty_name_city_accepted_witness :
  (0 < 52 /\ (0 <? 160)%float = true /\ (0 <? 64)%float = true ->
   Patient_init no_str_as_int no_str_as_float body_empty_names =
     Ok (mkPatient "P003" "" "" 52 "Female" 160 64) /\
   post_create pow_square_once no_str_as_int no_str_as_float
     body_empty_names None =
     create_patient pow_square_once
       (mkPatient "P003" "" "" 52 "Female" 160 64) None) /\
  (~ (0 < 52 /\ (0 <? 160)%float = true /\ (0 <? 64)%float = true) ->
   Patient_init no_str_as_int no_str_as_float body_empty_names =
     Err ValidationError /\
   post_create pow_square_once no_str_as_int no_str_as_float
     body_empty_names None = (Err ValidationError, None)).
Proof.
  apply (empty_name_city_accepted pow_square_once no_str_as_int
           no_str_as_float body_empty_names "P003" "" "" "Female" 52 160 64
           None);
    solve [left; reflexivity | reflexivity].
Defined.

(** C8, counterexample.  A body that validates, with an ID that is not in
    the store, for which create does not answer 201: its height is the
    smallest positive float, the body mass index raises, and nothing is
    stored, so that the get that follows answers 404. *)
Lemma create_then_get_counterexample :
  Patient_init no_str_as_int no_str_as_float body_tiny_height =
    Ok (mkPatient "P004" "Tara" "Goa" 33 "Female" tiny_height 64) /\
  Dict.mem "P004" (load_data file_P001) = false /\
  post_create pow_square_once no_str_as_int no_str_as_float
    body_tiny_height file_P001 = (Err ZeroDivisionError, file_P001) /\
  get_patient pow_square_once no_str_as_int no_str_as_float "P004" file_P001 =
    (Err (HTTPException 404 "Patient not found"), file_P001).
Proof.
  repeat split; vm_compute; reflexivity.
Qed.

Lemma create_then_get_witness :
  exists f' v,
    post_create pow_square_once no_str_as_int no_str_as_float
      body_empty_names file_P001 =
      (Ok (mkJSONResponse 201
             [ ("message", VStr "Patient created successfully");
               ("patient_id", VStr "P003") ]), f') /\
    get_patient pow_square_once no_str_as_int no_str_as_float "P003" f' =
      (Ok [ ("id", VStr "P003"); ("name", VStr "");
            ("city", VStr ""); ("age", VInt 52);
            ("gender", VStr "Female"); ("height", VFloat 160);
            ("weight", VFloat 64);
            ("bmi", VFloat 25); ("verdict", VStr v) ], f') /\
    (exists sq,
        square_of pow_square_once (160 / 100) sq /\
        is_zero sq = false /\
        rounded_to_hundredths (64 / sq) 25) /\
    v = (if (30 <=? 25)%float then "Obese"
         else if (25 <=? 25)%float then "Overweight"
         else if (18.5 <=? 25)%float then "Normal"
         else "Underweight").
Proof.
  apply (create_then_get pow_square_once no_str_as_int no_str_as_float
           body_empty_names
           (mkPatient "P003" "" "" 52 "Female" 160 64) file_P001 25);
    vm_compute; reflexivity.
Defined.

(** ** The built-in [sorted] *)

Section SortedBuiltin.

Context {A : Type}.

Lemma insort_perm (x : float * A) (l : list (float * A)) :
  Permutation (insort x l) (x :: l).
Proof.
  induction l as [| y t IH]; simpl; auto.
  destruct (fst y <? fst x)%float; auto.
  rewrite IH. apply perm_swap.
Qed.

Lemma stable_sort_perm (l : list (float * A)) : Permutation (stable_sort l) l.
Proof.
  induction l as [| x t IH]; simpl; auto.
  rewrite insort_perm. now constructor.
Qed.

Lemma insort_sorted (x : float * A) (l : list (float * A)) :
  Forall (fun a => is_nan (fst a) = false) l ->
  StronglySorted key_le l -> StronglySorted key_le (insort x l).
Proof.
  intros N. induction 1 as [| y t St IH Hy]; simpl.
  - repeat constructor.
  - inversion N as [| ? ? Ny Nt]; subst.
    destruct (fst y <? fst x)%float eqn:E.
    + constructor; auto.
      eapply Permutation_Forall; [symmetry; apply insort_perm |].
      constructor; auto. unfold key_le. now apply float_lt_asym.
    + constructor.
      * now constructor.
      * constructor; auto.
        eapply Forall_impl; [| exact Hy].
        unfold key_le. intros z Hz.
        apply (float_le_trans (fst x) (fst y) (fst z)); assumption.
Qed.

Lemma stable_sort_sorted (l : list (float * A)) :
  Forall (fun a => is_nan (fst a) = false) l ->
  StronglySorted key_le (stable_sort l).
Proof.
  induction 1 as [| x t Nx Nt IH]; simpl; [constructor |].
  apply insort_sorted; auto.
  eapply Permutation_Forall; [symmetry; apply stable_sort_perm | exact Nt].
Qed.

Lemma StronglySorted_snoc {B : Type} (R : B -> B -> Prop) (l : list B) (a : B) :
  StronglySorted R l -> Forall (fun x => R x a) l -> StronglySorted R (l ++ [a]).
Proof.
  induction 1 as [| y t St IH Hy]; simpl; intros F.
  - repeat constructor.
  - inversion F; subst. constructor; auto.
    apply Forall_app. split; auto.
Qed.

Lemma StronglySorted_rev {B : Type} (R : B -> B -> Prop) (l : list B) :
  StronglySorted R l -> StronglySorted (fun a b => R b a) (rev l).
Proof.
  induction 1 as [| y t St IH Hy]; simpl.
  - constructor.
  - apply StronglySorted_snoc; auto.
    apply Forall_rev. exact Hy.
Qed.

Lemma filter_insort (k : float) (x : float * A) (l : list (float * A)) :
  filter (key_is k) (insort x l) = filter (key_is k) (x :: l).
Proof.
  induction l as [| y t IH]; [reflexivity |].
  simpl insort.
  destruct (fst y <? fst x)%float eqn:E; [| reflexivity].
  simpl. rewrite IH. simpl.
  destruct (key_is k y) eqn:Ey, (key_is k x) eqn:Ex; try reflexivity.
  unfold key_is in *.
  exfalso. exact (float_lt_eq_absurd _ _ _ E Ey Ex).
Qed.

Lemma filter_stable_sort (k : float) (l : list (float * A)) :
  filter (key_is k) (stable_sort l) = filter (key_is k) l.
Proof.
  induction l as [| x t IH]; simpl; auto.
  rewrite filter_insort. simpl. now rewrite IH.
Qed.

Lemma mapM_keyed (key : A -> outcome float) (l : list A)
  (keyed : list (float * A)) :
  mapM (fun x => k <- key x ;; Ok (k, x)) l = Ok keyed ->
  map snd keyed = l /\ keyed_by key keyed.
Proof.
  revert keyed. induction l as [| x t IH]; simpl; intros keyed H.
  - injection H as <-. split; constructor.
  - bind_inv H. bind_inv H. injection H as <-.
    bind_inv Ha. injection Ha as <-.
    destruct (IH _ Ha0) as [E F]. simpl. split; [now rewrite E |].
    constructor; auto.
Qed.

Lemma mapM_keyed_total (key : A -> outcome float) (l : list A) :
  Forall (fun x => exists k, key x = Ok k) l ->
  exists keyed, mapM (fun x => k <- key x ;; Ok (k, x)) l = Ok keyed.
Proof.
  induction 1 as [| x t [k Hk] _ [keyed IH]]; simpl.
  - eauto.
  - rewrite Hk. simpl. rewrite IH. simpl. eauto.
Qed.

Lemma keyed_by_keys (key : A -> outcome float) (s : list (float * A)) :
  keyed_by key s -> mapM key (map snd s) = Ok (map fst s).
Proof.
  induction 1 as [| kx t Hk _ IH]; simpl; auto.
  rewrite Hk. simpl. rewrite IH. reflexivity.
Qed.

Lemma keyed_by_filter (key : A -> outcome float) (k : float)
  (s : list (float * A)) :
  keyed_by key s ->
  filter (key_matches key k) (map snd s) = map snd (filter (key_is k) s).
Proof.
  induction 1 as [| kx t Hk _ IH]; simpl; auto.
  unfold key_matches at 1. rewrite Hk. fold (key_is k kx).
  destruct (key_is k kx); simpl; now rewrite IH.
Qed.

Lemma StronglySorted_map_fst (R : float -> float -> Prop)
  (s : list (float * A)) :
  StronglySorted (fun a b => R (fst a) (fst b)) s -> StronglySorted R (map fst s).
Proof.
  induction 1 as [| y t St IH Hy]; simpl; constructor; auto.
  apply Forall_map. exact Hy.
Qed.

Lemma sorted_Ok_inv (l res : list A) (key : A -> outcome float)
  (reverse : bool) :
  sorted l key reverse = Ok res ->
  Permutation res l /\
  (exists keys, mapM key res = Ok keys /\
     (Forall (fun k => is_nan k = false) keys ->
      (reverse = false ->
       StronglySorted (fun x y => (y <? x)%float = false) keys) /\
      (reverse = true ->
       StronglySorted (fun x y => (x <? y)%float = false) keys))) /\
  (forall k, filter (key_matches key k) res = filter (key_matches key k) l).
Proof.
  unfold sorted. intros H. bind_inv H. injection H as <-.
  destruct (mapM_keyed _ _ _ Ha) as [E F]. subst l.
  destruct reverse.
  - assert (P : Permutation (rev (stable_sort (rev a))) a).
    { rewrite <- Permutation_rev, stable_sort_perm. symmetry. apply Permutation_rev. }
    assert (F' : keyed_by key (rev (stable_sort (rev a)))).
    { eapply Permutation_Forall; [symmetry; exact P | exact F]. }
    split; [now apply Permutation_map |]. split.
    + exists (map fst (rev (stable_sort (rev a)))).
      split; [now apply keyed_by_keys |].
      intros N. split; [discriminate |]. intros _.
      apply StronglySorted_map_fst
        with (R := fun x y => (x <? y)%float = false).
      apply (StronglySorted_rev key_le). apply stable_sort_sorted.
      rewrite Forall_map in N.
      eapply Permutation_Forall; [| exact N].
      rewrite P. apply Permutation_rev.
    + intros k. rewrite !keyed_by_filter by assumption. f_equal.
      rewrite filter_rev, filter_stable_sort, filter_rev. apply rev_involutive.
  - assert (P : Permutation (stable_sort a) a) by apply stable_sort_perm.
    assert (F' : keyed_by key (stable_sort a)).
    { eapply Permutation_Forall; [symmetry; exact P | exact F]. }
    split; [now apply Permutation_map |]. split.
    + exists (map fst (stable_sort a)).
      split; [now apply keyed_by_keys |].
      intros N. split; [| discriminate]. intros _.
      apply StronglySorted_map_fst
        with (R := fun x y => (y <? x)%float = false).
      apply stable_sort_sorted.
      rewrite Forall_map in N.
      eapply Permutation_Forall; [exact P | exact N].
    + intros k. rewrite !keyed_by_filter by assumption. f_equal.
      apply filter_stable_sort.
Qed.

Lemma sorted_total (l : list A) (key : A -> outcome float) (reverse : bool) :
  Forall (fun x => exists k, key x = Ok k) l ->
  exists res, sorted l key reverse = Ok res.
Proof.
  intros H. destruct (mapM_keyed_total key l H) as [keyed E].
  unfold sorted. rewrite E. simpl. eauto.
Qed.


End SortedBuiltin.

(** ** Sorting the store *)


Lemma mapM_total {A B : Type} (f : A -> outcome B) (l : list A) :
  Forall (fun x => exists y, f x = Ok y) l -> exists ys, mapM f l = Ok ys.
Proof.
  induction 1 as [| x t [y Hy] _ [ys IH]]; simpl.
  - eauto.
  - rewrite Hy. simpl. rewrite IH. simpl. eauto.
Qed.

Lemma mapM_Forall_out {A B : Type} (f : A -> outcome B) (P : A -> B -> Prop)
  (l : list A) (ys : list B) :
  Forall (fun x => forall y, f x = Ok y -> P x y) l ->
  mapM f l = Ok ys -> Forall2 P l ys.
Proof.
  intros F. revert ys. induction F as [| x t Hx _ IH]; simpl; intros ys H.
  - injection H as <-. constructor.
  - apply bind_Ok_inv in H. destruct H as (y & Hy & H).
    apply bind_Ok_inv in H. destruct H as (ys' & Hys & H).
    injection H as <-. constructor; auto.
Qed.

Lemma model_dump_Ok (pow : c_pow) (p : Patient) (ex : list string) :
  (exists b, bmi pow p = Ok b) -> exists d, model_dump pow p ex = Ok d.
Proof.
  intros [b Hb]. rewrite (model_dump_of_bmi pow p b ex Hb). eauto.
Qed.





(** * Further properties of the handlers *)

(** ** Delete, and how create, update and delete compose *)

Lemma delete_patient_Ok_inv (pid : string) (f f' : file) (r : doc) :
  delete_patient pid f = (Ok r, f') ->
  Dict.get pid (load_data f) <> None /\
  f' = Some (Dict.del pid (load_data f)) /\
  r = [("message", VStr "Patient deleted successfully")].
Proof.
  unfold delete_patient, save_data. intros H.
  destruct (Dict.get pid (load_data f)) as [old |] eqn:G; [| discriminate].
  injection H as <- <-. repeat split; congruence.
Qed.

(** X1.  Once a delete of an ID has succeeded on a store with unique keys,
    the ID is gone: a get, a second delete and an update of that ID all
    answer 404 and leave the file as the delete left it. *)
Theorem delete_then_not_found
  (pow : c_pow)
  (str_as_int : string -> option Z) (str_as_float : string -> option float)
  (pid : string) (f f' : file) (r : doc) :
  NoDup (Dict.keys (load_data f)) ->
  delete_patient pid f = (Ok r, f') ->
  get_patient pow str_as_int str_as_float pid f' =
    (Err (HTTPException 404 "Patient not found"), f') /\
  delete_patient pid f' = (Err (HTTPException 404 "Patient not found"), f') /\
  (forall p, update_patient pow pid p f' =
             (Err (HTTPException 404 "Patient not found"), f')).
Proof.
  intros N H. apply delete_patient_Ok_inv in H. destruct H as (_ & -> & _).
  pose proof (Dict_get_del_same pid (load_data f) N) as G.
  unfold get_patient, delete_patient, update_patient. simpl load_data.
  rewrite G. auto.
Qed.

Lemma delete_then_not_found_witness :
  get_patient pow_square_once no_str_as_int no_str_as_float "B"
    (snd (delete_patient "B" file_ABC)) =
    (Err (HTTPException 404 "Patient not found"),
     snd (delete_patient "B" file_ABC)) /\
  delete_patient "B" (snd (delete_patient "B" file_ABC)) =
    (Err (HTTPException 404 "Patient not found"),
     snd (delete_patient "B" file_ABC)) /\
  (forall p, update_patient pow_square_once "B" p (snd (delete_patient "B" file_ABC)) =
             (Err (HTTPException 404 "Patient not found"),
              snd (delete_patient "B" file_ABC))).
Proof.
  apply (delete_then_not_found pow_square_once no_str_as_int no_str_as_float "B" file_ABC
           (snd (delete_patient "B" file_ABC))
           [("message", VStr "Patient deleted successfully")]).
  - vm_compute. repeat constructor; simpl; intuition discriminate.
  - vm_compute. reflexivity.
Defined.

(** X2.  Delete of an ID that is a key of a store with unique keys succeeds
    and removes that key only: every other key keeps its value, and the
    remaining keys keep their relative order. *)
Theorem delete_removes_only_its_key (pid : string) (f : file) :
  NoDup (Dict.keys (load_data f)) ->
  Dict.mem pid (load_data f) = true ->
  exists f',
    delete_patient pid f =
      (Ok [("message", VStr "Patient deleted successfully")], f') /\
    Dict.get pid (load_data f') = None /\
    (forall k, k <> pid ->
               Dict.get k (load_data f') = Dict.get k (load_data f)) /\
    Dict.keys (load_data f') =
      filter (fun k => negb (String.eqb pid k)) (Dict.keys (load_data f)).
Proof.
  intros N M. unfold Dict.mem in M.
  destruct (Dict.get pid (load_data f)) as [old |] eqn:G; [| discriminate].
  exists (Some (Dict.del pid (load_data f))). split.
  - unfold delete_patient. rewrite G. reflexivity.
  - simpl. split; [now apply Dict_get_del_same |].
    split; [intros k Hk; now apply Dict_get_del_other |].
    now apply Dict_keys_del.
Qed.

Lemma delete_removes_only_its_key_witness :
  exists f',
    delete_patient "B" file_ABC =
      (Ok [("message", VStr "Patient deleted successfully")], f') /\
    Dict.get "B" (load_data f') = None /\
    (forall k, k <> "B" ->
               Dict.get k (load_data f') = Dict.get k (load_data file_ABC)) /\
    Dict.keys (load_data f') =
      filter (fun k => negb (String.eqb "B" k)) (Dict.keys (load_data file_ABC)).
Proof.
  apply (delete_removes_only_its_key "B" file_ABC).
  - vm_compute. repeat constructor; simpl; intuition discriminate.
  - vm_compute. reflexivity.
Defined.

(** X3.  A successful create followed by a delete of the created ID
    succeeds and brings the store back to what it was before the create. *)
Theorem create_then_delete
  (pow : c_pow) (p : Patient) (f f' : file) (r : JSONResponse) :
  create_patient pow p f = (Ok r, f') ->
  exists f'',
    delete_patient (id p) f' =
      (Ok [("message", VStr "Patient deleted successfully")], f'') /\
    load_data f'' = load_data f.
Proof.
  intros H. apply create_patient_Ok_inv in H.
  destruct H as (d & G & _ & -> & _).
  exists (Some (Dict.del (id p) (Dict.set (id p) d (load_data f)))). split.
  - unfold delete_patient. simpl load_data.
    rewrite Dict_get_set_same. reflexivity.
  - simpl. now apply Dict_del_set_absent.
Qed.

Lemma create_then_delete_witness :
  exists f'',
    delete_patient "P002" (snd (create_patient pow_square_once patient_P002 file_P001)) =
      (Ok [("message", VStr "Patient deleted successfully")], f'') /\
    load_data f'' = load_data file_P001.
Proof.
  apply (create_then_delete pow_square_once patient_P002 file_P001
           (snd (create_patient pow_square_once patient_P002 file_P001))
           (mkJSONResponse 201
              [ ("message", VStr "Patient created successfully");
                ("patient_id", VStr "P002") ])).
  vm_compute. reflexivity.
Defined.

(** X4.  A successful create adds its ID as the last key of the store and
    touches nothing else: the earlier keys stay in place with their values.
    Any later create with the same ID is refused with the 400 error. *)
Theorem create_appends_new_key
  (pow : c_pow) (p : Patient) (f f' : file) (r : JSONResponse) :
  create_patient pow p f = (Ok r, f') ->
  Dict.keys (load_data f') = (Dict.keys (load_data f) ++ [id p])%list /\
  (forall k, k <> id p ->
             Dict.get k (load_data f') = Dict.get k (load_data f)) /\
  (forall q, id q = id p ->
             create_patient pow q f' =
               (Err (HTTPException 400 "Patient with this ID already exists"),
                f')).
Proof.
  intros H. apply create_patient_Ok_inv in H.
  destruct H as (d & G & _ & -> & _). simpl load_data.
  split; [now apply Dict_keys_set_absent |].
  split; [intros k Hk; now apply Dict_get_set_other |].
  intros q Hq. unfold create_patient, Dict.mem. simpl load_data.
  rewrite Hq, Dict_get_set_same. reflexivity.
Qed.

Lemma create_appends_new_key_witness :
  Dict.keys (load_data (snd (create_patient pow_square_once patient_P002 file_P001))) =
    (Dict.keys (load_data file_P001) ++ ["P002"])%list /\
  (forall k, k <> "P002" ->
     Dict.get k (load_data (snd (create_patient pow_square_once patient_P002 file_P001))) =
     Dict.get k (load_data file_P001)) /\
  (forall q, id q = "P002" ->
     create_patient pow_square_once q (snd (create_patient pow_square_once patient_P002 file_P001)) =
       (Err (HTTPException 400 "Patient with this ID already exists"),
        snd (create_patient pow_square_once patient_P002 file_P001))).
Proof.
  apply (create_appends_new_key pow_square_once patient_P002 file_P001
           (snd (create_patient pow_square_once patient_P002 file_P001))
           (mkJSONResponse 201
              [ ("message", VStr "Patient created successfully");
                ("patient_id", VStr "P002") ])).
  vm_compute. reflexivity.
Defined.

(** X6.  Of two successful updates of the same ID the second wins
    outright: the file they leave is the file the second update alone would
    have left. *)
Theorem update_twice_last_wins
  (pow : c_pow) (pid : string) (p1 p2 : Patient) (f f1 f2 : file) (r1 r2 : doc) :
  update_patient pow pid p1 f = (Ok r1, f1) ->
  update_patient pow pid p2 f1 = (Ok r2, f2) ->
  update_patient pow pid p2 f = (Ok r2, f2).
Proof.
  intros H1 H2.
  apply update_patient_Ok_inv in H1. destruct H1 as (d1 & G & _ & ->).
  unfold update_patient in *. simpl load_data in H2.
  rewrite Dict_get_set_same in H2.
  destruct (Dict.get pid (load_data f)); [| congruence].
  destruct (model_dump pow p2 ["id"]) as [d2 | e]; [| discriminate].
  unfold save_data in *. rewrite Dict_set_set in H2. exact H2.
Qed.

Lemma update_twice_last_wins_witness :
  update_patient pow_square_once "P001" patient_P002 file_P001 =
    update_patient pow_square_once "P001" patient_P002
      (snd (update_patient pow_square_once "P001" patient_A file_P001)).
Proof.
  apply (update_twice_last_wins pow_square_once "P001" patient_A patient_P002 file_P001
           (snd (update_patient pow_square_once "P001" patient_A file_P001))
           (snd (update_patient pow_square_once "P001" patient_P002
                   (snd (update_patient pow_square_once "P001" patient_A file_P001))))
           [("message", VStr "Patient updated successfully")]
           [("message", VStr "Patient updated successfully")]);
    vm_compute; reflexivity.
Defined.

(** ** More on validation *)

Section ValidationProperties.

Variable pow : c_pow.
Variable str_as_int : string -> option Z.
Variable str_as_float : string -> option float.

Lemma required_Ok_inv (k : string) (kwargs : doc) (v : value) :
  required k kwargs = Ok v -> Dict.get k kwargs = Some v.
Proof.
  unfold required. destruct (Dict.get k kwargs); intros H;
    [now injection H as -> | discriminate].
Qed.

Lemma Patient_init_fields (kwargs : doc) (p : Patient) :
  Patient_init str_as_int str_as_float kwargs = Ok p ->
  exists vi vn vc va vg vh vw,
    Dict.get "id" kwargs = Some vi /\ validate_str vi = Ok (id p) /\
    Dict.get "name" kwargs = Some vn /\ validate_str vn = Ok (name p) /\
    Dict.get "city" kwargs = Some vc /\ validate_str vc = Ok (city p) /\
    Dict.get "age" kwargs = Some va /\
      validate_int str_as_int va = Ok (age p) /\
    Dict.get "gender" kwargs = Some vg /\ validate_str vg = Ok (gender p) /\
    Dict.get "height" kwargs = Some vh /\
      validate_float str_as_float vh = Ok (height p) /\
    Dict.get "weight" kwargs = Some vw /\
      validate_float str_as_float vw = Ok (weight p).
Proof.
  unfold Patient_init. intros H.
  apply bind_Ok_inv in H. destruct H as (i & Hi & H).
  apply bind_Ok_inv in H. destruct H as (n & Hn & H).
  apply bind_Ok_inv in H. destruct H as (c & Hc & H).
  apply bind_Ok_inv in H. destruct H as (a & Ha & H).
  apply bind_Ok_inv in H. destruct H as (g & Hg & H).
  apply bind_Ok_inv in H. destruct H as (h & Hh & H).
  apply bind_Ok_inv in H. destruct H as (w & Hw & H).
  injection H as <-. simpl.
  apply bind_Ok_inv in Hi. destruct Hi as (vi & Ri & Hi).
  apply bind_Ok_inv in Hn. destruct Hn as (vn & Rn & Hn).
  apply bind_Ok_inv in Hc. destruct Hc as (vc & Rc & Hc).
  apply bind_Ok_inv in Ha. destruct Ha as (va & Ra & Ha).
  apply bind_Ok_inv in Ha. destruct Ha as (a' & Ha & Ga).
  apply gt_int_Ok_inv in Ga. destruct Ga as [-> _].
  apply bind_Ok_inv in Hg. destruct Hg as (vg & Rg & Hg).
  apply bind_Ok_inv in Hh. destruct Hh as (vh & Rh & Hh).
  apply bind_Ok_inv in Hh. destruct Hh as (h' & Hh & Gh).
  apply gt_float_Ok_inv in Gh. destruct Gh as [-> _].
  apply bind_Ok_inv in Hw. destruct Hw as (vw & Rw & Hw).
  apply bind_Ok_inv in Hw. destruct Hw as (w' & Hw & Gw).
  apply gt_float_Ok_inv in Gw. destruct Gw as [-> _].
  exists vi, vn, vc, va, vg, vh, vw.
  repeat split; auto using required_Ok_inv.
Qed.

Lemma Patient_init_within_bounds (kwargs : doc) (p : Patient) :
  Patient_init str_as_int str_as_float kwargs = Ok p -> within_bounds p.
Proof.
  intros H. apply Patient_init_Ok_inv in H. destruct H as (Ha & Hh & Hw).
  repeat split; [now apply Z.ltb_lt | assumption | assumption].
Qed.

Lemma bind_Err_only {A B : Type} (m : outcome A) (k : A -> outcome B) :
  (forall e, m = Err e -> e = ValidationError) ->
  (forall a e, k a = Err e -> e = ValidationError) ->
  forall e, bind m k = Err e -> e = ValidationError.
Proof.
  intros Hm Hk e. destruct m as [a | e']; simpl; intros H.
  - eapply Hk, H.
  - injection H as <-. now apply Hm.
Qed.

Lemma Patient_init_Err (kwargs : doc) (e : exn) :
  Patient_init str_as_int str_as_float kwargs = Err e -> e = ValidationError.
Proof.
  unfold Patient_init. revert e.
  repeat (apply bind_Err_only; [| intro]);
    unfold required, validate_str, validate_int, validate_float,
      gt_int, gt_float;
    intros e;
    repeat match goal with
           | |- context [match ?x with _ => _ end] => destruct x
           | |- context [if ?x then _ else _] => destruct x
           end;
    congruence.
Qed.

End ValidationProperties.

Section RequestProperties.

Variable pow : c_pow.
Variable str_as_int : string -> option Z.
Variable str_as_float : string -> option float.

Lemma Patient_of_entry_id (pid : string) (info : doc) (p : Patient) :
  Patient_of_entry str_as_int str_as_float pid info = Ok p -> id p = pid.
Proof.
  unfold Patient_of_entry. destruct (Dict.mem "id" info); [discriminate |].
  intros H. apply Patient_init_fields in H.
  destruct H as (vi & vn & vc & va & vg & vh & vw & Gi & Vi & _).
  simpl in Gi. injection Gi as <-. simpl in Vi. now injection Vi as <-.
Qed.

Lemma Patient_of_entry_Err (pid : string) (info : doc) (e : exn) :
  Patient_of_entry str_as_int str_as_float pid info = Err e ->
  (e = TypeError /\ Dict.mem "id" info = true) \/
  (e = ValidationError /\ Dict.mem "id" info = false).
Proof.
  unfold Patient_of_entry. destruct (Dict.mem "id" info).
  - intros H. injection H as <-. auto.
  - intros H. apply Patient_init_Err in H. auto.
Qed.

(** X7.  A body that lacks one of the seven declared fields is rejected with
    a validation error, whatever else it holds; create and update then
    answer with that error and leave the file as it was, update even when
    the ID in the path is unknown. *)
Theorem missing_field_rejected
  (k : string) (kwargs : doc) (pid : string) (f : file) :
  In k field_names ->
  Dict.get k kwargs = None ->
  Patient_init str_as_int str_as_float kwargs = Err ValidationError /\
  post_create pow str_as_int str_as_float kwargs f = (Err ValidationError, f) /\
  put_update pow str_as_int str_as_float pid kwargs f = (Err ValidationError, f).
Proof.
  intros Hk Hget.
  assert (E : Patient_init str_as_int str_as_float kwargs = Err ValidationError).
  { destruct (Patient_init str_as_int str_as_float kwargs) as [p | e] eqn:E.
    - exfalso. apply Patient_init_fields in E.
      destruct E as (vi & vn & vc & va & vg & vh & vw &
                     Gi & _ & Gn & _ & Gc & _ & Ga & _ & Gg & _ & Gh & _ & Gw & _).
      simpl in Hk.
      destruct Hk as [<- | [<- | [<- | [<- | [<- | [<- | [<- | []]]]]]]];
        congruence.
    - apply Patient_init_Err in E. now subst. }
  unfold post_create, put_update. rewrite E. auto.
Qed.

(** X8.  Construction looks at the keyword dictionary through its seven
    declared fields only: two dictionaries that agree on those fields give
    the same result, whatever other keys either of them carries. *)
Theorem undeclared_keys_ignored (kwargs1 kwargs2 : doc) :
  (forall k, In k field_names -> Dict.get k kwargs1 = Dict.get k kwargs2) ->
  Patient_init str_as_int str_as_float kwargs1 =
  Patient_init str_as_int str_as_float kwargs2.
Proof.
  intros H. unfold Patient_init, required.
  rewrite (H "id"), (H "name"), (H "city"), (H "age"), (H "gender"),
    (H "height"), (H "weight"); simpl; tauto.
Qed.

(** X9.  Every record the handlers get to work with is within bounds: a
    record built from a request body, and a record rebuilt from a stored
    entry, has positive age, height and weight; the rebuilt record carries
    the key it was filed under as its ID. *)
Theorem constructed_record_within_bounds :
  (forall (kwargs : doc) (p : Patient),
      Patient_init str_as_int str_as_float kwargs = Ok p -> within_bounds p) /\
  (forall (pid : string) (info : doc) (p : Patient),
      Patient_of_entry str_as_int str_as_float pid info = Ok p ->
      within_bounds p /\ id p = pid).
Proof.
  split.
  - apply Patient_init_within_bounds.
  - intros pid info p H. split; [| now apply Patient_of_entry_id in H].
    unfold Patient_of_entry in H.
    destruct (Dict.mem "id" info); [discriminate |].
    now apply Patient_init_within_bounds in H.
Qed.

End RequestProperties.

Lemma missing_field_rejected_witness :
  Patient_init no_str_as_int no_str_as_float
    (Dict.del "weight" body_empty_names) = Err ValidationError /\
  post_create pow_square_once no_str_as_int no_str_as_float
    (Dict.del "weight" body_empty_names) file_P001 =
    (Err ValidationError, file_P001) /\
  put_update pow_square_once no_str_as_int no_str_as_float "P001"
    (Dict.del "weight" body_empty_names) file_P001 =
    (Err ValidationError, file_P001).
Proof.
  apply (missing_field_rejected pow_square_once no_str_as_int no_str_as_float
           "weight" (Dict.del "weight" body_empty_names) "P001" file_P001).
  - simpl. tauto.
  - reflexivity.
Defined.

Lemma undeclared_keys_ignored_witness :
  Patient_init no_str_as_int no_str_as_float
    (Dict.set "verdict" (VStr "Obese") body_empty_names) =
  Patient_init no_str_as_int no_str_as_float body_empty_names.
Proof.
  apply (undeclared_keys_ignored no_str_as_int no_str_as_float
           (Dict.set "verdict" (VStr "Obese") body_empty_names)
           body_empty_names).
  intros k Hk. simpl in Hk.
  destruct Hk as [<- | [<- | [<- | [<- | [<- | [<- | [<- | []]]]]]]];
    reflexivity.
Defined.

Lemma constructed_record_within_bounds_witness :
  within_bounds (mkPatient "P003" "" "" 52 "Female" 160 64).
Proof.
  apply (proj1 (constructed_record_within_bounds
                  no_str_as_int no_str_as_float) body_empty_names).
  vm_compute. reflexivity.
Defined.

(** ** Stored entries and what get and sort make of them *)

Lemma model_dump_with_id (pow : c_pow) (pid : string) (p : Patient) :
  model_dump pow (with_id pid p) ["id"] = model_dump pow p ["id"].
Proof.
  reflexivity.
Qed.

Lemma model_dump_full (pow : c_pow) (p : Patient) (d : doc) :
  model_dump pow p ["id"] = Ok d ->
  model_dump pow p [] = Ok (("id", VStr (id p)) :: d).
Proof.
  unfold model_dump.
  destruct (bmi pow p) as [b |]; [| discriminate]. simpl.
  destruct (verdict pow p) as [v |]; [| discriminate]. simpl.
  intros H. injection H as <-. reflexivity.
Qed.

Lemma constructed_record_bounds_aux
  (str_as_int : string -> option Z) (str_as_float : string -> option float)
  (pid : string) (info : doc) (p : Patient) :
  Patient_of_entry str_as_int str_as_float pid info = Ok p ->
  within_bounds p /\ id p = pid.
Proof.
  intros H. split; [| now apply Patient_of_entry_id in H].
  unfold Patient_of_entry in H.
  destruct (Dict.mem "id" info); [discriminate |].
  now apply Patient_init_within_bounds in H.
Qed.

Lemma float_pow_two_Err (pow : c_pow) (x : float) (e : exn) :
  float_pow_two pow x = Err e -> e = OverflowError \/ e = ValueError.
Proof.
  unfold float_pow_two.
  destruct (is_nan x); [discriminate |].
  destruct (is_infinity x); [discriminate |].
  destruct (is_zero x); [discriminate |].
  destruct (_ =? one)%float; [discriminate |].
  destruct (pow _ two) as [ix en].
  destruct (adjust_erange ix en); intros H; try discriminate;
    injection H as <-; auto.
Qed.

Lemma bmi_Err (pow : c_pow) (p : Patient) (e : exn) :
  bmi pow p = Err e ->
  e = ZeroDivisionError \/ e = OverflowError \/ e = ValueError.
Proof.
  unfold bmi, float_div. change (is_zero 100) with false. simpl.
  destruct (float_pow_two pow (height p / 100)) as [sq | e'] eqn:Hsq; simpl.
  - destruct (is_zero sq); simpl; intros H; [| discriminate].
    injection H as <-. auto.
  - intros H. injection H as <-.
    apply float_pow_two_Err in Hsq. tauto.
Qed.

Lemma model_dump_Err (pow : c_pow) (p : Patient) (ex : list string) (e : exn) :
  model_dump pow p ex = Err e -> bmi pow p = Err e.
Proof.
  destruct (bmi pow p) as [b | e'] eqn:Hb.
  - rewrite (model_dump_of_bmi pow p b ex Hb). discriminate.
  - unfold model_dump. rewrite Hb. simpl. intros H. injection H as <-. reflexivity.
Qed.

Section StoreProperties.

Variable pow : c_pow.
Variable str_as_int : string -> option Z.
Variable str_as_float : string -> option float.

Lemma entry_consistent_rebuilt (pid : string) (d : doc) :
  entry_consistent pow pid d ->
  exists p,
    Patient_of_entry str_as_int str_as_float pid d = Ok p /\
    model_dump pow p [] = Ok (("id", VStr pid) :: d).
Proof.
  intros (p & <- & (Ha & Hh & Hw) & Hd). exists p. split.
  - apply (Patient_of_entry_dump pow); auto.
    now apply Z.ltb_lt.
  - now apply model_dump_full.
Qed.

(** X5.  When a body validates to a record whose body mass index is
    defined and the ID in the path is a key of the store, update succeeds,
    and a get of that ID on the file it leaves returns the body's name,
    city, age, gender, height and weight, under the ID of the path, not the
    ID of the body, followed by the body mass index, which is the weight
    divided by the square of the height in metres and rounded to two
    decimals, and the verdict the threshold table gives for it. *)
Theorem update_then_get
  (pid : string) (body : doc) (p : Patient) (f : file) (b : float) :
  Patient_init str_as_int str_as_float body = Ok p ->
  Dict.mem pid (load_data f) = true ->
  bmi pow p = Ok b ->
  exists f' v,
    put_update pow str_as_int str_as_float pid body f =
      (Ok [("message", VStr "Patient updated successfully")], f') /\
    get_patient pow str_as_int str_as_float pid f' =
      (Ok [ ("id", VStr pid); ("name", VStr (name p));
            ("city", VStr (city p)); ("age", VInt (age p));
            ("gender", VStr (gender p)); ("height", VFloat (height p));
            ("weight", VFloat (weight p));
            ("bmi", VFloat b); ("verdict", VStr v) ], f') /\
    (exists sq,
        square_of pow (height p / 100) sq /\
        is_zero sq = false /\
        rounded_to_hundredths (weight p / sq) b) /\
    v = (if (30 <=? b)%float then "Obese"
         else if (25 <=? b)%float then "Overweight"
         else if (18.5 <=? b)%float then "Normal"
         else "Underweight").
Proof.
  intros Hinit Hmem Hb.
  pose proof (Patient_init_within_bounds _ _ _ _ Hinit) as Hbounds.
  pose proof (model_dump_of_bmi pow p b ["id"] Hb) as Hd.
  unfold Dict.mem in Hmem.
  destruct (Dict.get pid (load_data f)) as [old |] eqn:G; [| discriminate].
  eexists _, _. split.
  { unfold put_update. rewrite Hinit. unfold update_patient.
    rewrite G, Hd. reflexivity. }
  split.
  { destruct Hbounds as (Va & Vh & Vw). apply Z.ltb_lt in Va.
    unfold get_patient, save_data, load_data at 1.
    rewrite Dict_get_set_same.
    pose proof (Patient_of_entry_dump pow str_as_int str_as_float
                  (with_id pid p) _ Va Vh Vw Hd) as Hq.
    change (id (with_id pid p)) with pid in Hq. rewrite Hq.
    simpl.
    rewrite (model_dump_of_bmi pow (with_id pid p) b [] Hb).
    reflexivity. }
  split; [| reflexivity].
  pose proof (metres_positive pow p b (proj1 (proj2 Hbounds)) Hb) as Hm.
  destruct (bmi_Ok_inv pow p b Hb) as (sq & Hsq & Hz & ->).
  exists sq. split; [now apply float_pow_two_square |].
  split; [exact Hz | apply py_round_rounded].
Qed.

(** X10.  Consistency of the store is an invariant of the service.  It
    holds when there is no file, and create, update and delete keep it
    whatever the request: after any of them the keys are still unique and
    every entry is still the dump of a record within bounds, so that its
    stored [bmi] and [verdict] are the ones its stored height and weight
    give. *)
Theorem store_consistent_invariant :
  store_consistent pow (load_data None) /\
  (forall (body : doc) (f : file),
      store_consistent pow (load_data f) ->
      store_consistent pow
        (load_data (snd (post_create pow str_as_int str_as_float body f)))) /\
  (forall (pid : string) (body : doc) (f : file),
      store_consistent pow (load_data f) ->
      store_consistent pow
        (load_data (snd (put_update pow str_as_int str_as_float pid body f)))) /\
  (forall (pid : string) (f : file),
      store_consistent pow (load_data f) ->
      store_consistent pow (load_data (snd (delete_patient pid f)))).
Proof.
  split; [split; constructor |].
  split; [| split].
  - intros body f [N F]. unfold post_create.
    destruct (Patient_init str_as_int str_as_float body) as [p | e] eqn:E;
      [| split; assumption].
    pose proof (Patient_init_within_bounds _ _ _ _ E) as Hb.
    unfold create_patient.
    destruct (Dict.mem (id p) (load_data f)); [split; assumption |].
    destruct (model_dump pow p ["id"]) as [d | e] eqn:Hd; [| split; assumption].
    simpl. split.
    + now apply Dict_keys_set_NoDup.
    + apply Dict_set_Forall; [| exact F]. exists p. auto.
  - intros pid body f [N F]. unfold put_update.
    destruct (Patient_init str_as_int str_as_float body) as [p | e] eqn:E;
      [| split; assumption].
    pose proof (Patient_init_within_bounds _ _ _ _ E) as Hb.
    unfold update_patient.
    destruct (Dict.get pid (load_data f)) as [old |]; [| split; assumption].
    destruct (model_dump pow p ["id"]) as [d | e] eqn:Hd; [| split; assumption].
    simpl. split.
    + now apply Dict_keys_set_NoDup.
    + apply Dict_set_Forall; [| exact F].
      exists (with_id pid p). split; [reflexivity |]. split; [exact Hb |].
      now rewrite model_dump_with_id.
  - intros pid f [N F]. unfold delete_patient.
    destruct (Dict.get pid (load_data f)); [| split; assumption].
    simpl. split.
    + now apply Dict_keys_del_NoDup.
    + now apply Dict_del_Forall.
Qed.

(** X11.  On a consistent store a get of a present ID never fails, and its
    answer is the stored document with the ID put in front: the derived
    fields it serves are the very ones the file holds. *)
Theorem get_returns_stored_document (pid : string) (d : doc) (f : file) :
  store_consistent pow (load_data f) ->
  Dict.get pid (load_data f) = Some d ->
  get_patient pow str_as_int str_as_float pid f =
    (Ok (("id", VStr pid) :: d), f).
Proof.
  intros [_ F] G. unfold get_patient. rewrite G.
  apply Dict_get_In in G.
  rewrite Forall_forall in F. specialize (F _ G). simpl in F.
  destruct (entry_consistent_rebuilt pid d F) as (p & Hp & Hfull).
  rewrite Hp. simpl. rewrite Hfull. reflexivity.
Qed.

(** X12.  Whether the file is missing or holds a store, a get leaves it as
    it is and ends in one of these ways: 404, exactly when the ID is not a
    key; a [TypeError], when the stored entry has an [id] key of its own;
    a validation error, when the entry does not construct; the error of
    the body mass index of the rebuilt record (a division by zero, an
    overflow, or a value error of the library power), when it has none; or
    the nine fields of that record, which is within bounds and carries the
    ID. *)
Theorem get_patient_outcomes (pid : string) (f : file) :
  snd (get_patient pow str_as_int str_as_float pid f) = f /\
  (fst (get_patient pow str_as_int str_as_float pid f) =
     Err (HTTPException 404 "Patient not found") <->
   Dict.get pid (load_data f) = None) /\
  (forall info,
      Dict.get pid (load_data f) = Some info ->
      (Dict.mem "id" info = true /\
       fst (get_patient pow str_as_int str_as_float pid f) = Err TypeError) \/
      (Dict.mem "id" info = false /\
       Patient_of_entry str_as_int str_as_float pid info = Err ValidationError /\
       fst (get_patient pow str_as_int str_as_float pid f) =
         Err ValidationError) \/
      (Dict.mem "id" info = false /\
       exists p,
         Patient_of_entry str_as_int str_as_float pid info = Ok p /\
         within_bounds p /\ id p = pid /\
         ((exists e,
              bmi pow p = Err e /\
              (e = ZeroDivisionError \/ e = OverflowError \/ e = ValueError) /\
              fst (get_patient pow str_as_int str_as_float pid f) = Err e) \/
          (exists b v,
              bmi pow p = Ok b /\ verdict pow p = Ok v /\
              fst (get_patient pow str_as_int str_as_float pid f) =
                Ok [ ("id", VStr pid); ("name", VStr (name p));
                     ("city", VStr (city p)); ("age", VInt (age p));
                     ("gender", VStr (gender p));
                     ("height", VFloat (height p));
                     ("weight", VFloat (weight p));
                     ("bmi", VFloat b); ("verdict", VStr v) ])))).
Proof.
  assert (Cases : forall info,
    Dict.get pid (load_data f) = Some info ->
    (Dict.mem "id" info = true /\
     fst (get_patient pow str_as_int str_as_float pid f) = Err TypeError) \/
    (Dict.mem "id" info = false /\
     Patient_of_entry str_as_int str_as_float pid info = Err ValidationError /\
     fst (get_patient pow str_as_int str_as_float pid f) =
       Err ValidationError) \/
    (Dict.mem "id" info = false /\
     exists p,
       Patient_of_entry str_as_int str_as_float pid info = Ok p /\
       within_bounds p /\ id p = pid /\
       ((exists e,
            bmi pow p = Err e /\
            (e = ZeroDivisionError \/ e = OverflowError \/ e = ValueError) /\
            fst (get_patient pow str_as_int str_as_float pid f) = Err e) \/
        (exists b v,
            bmi pow p = Ok b /\ verdict pow p = Ok v /\
            fst (get_patient pow str_as_int str_as_float pid f) =
              Ok [ ("id", VStr pid); ("name", VStr (name p));
                   ("city", VStr (city p)); ("age", VInt (age p));
                   ("gender", VStr (gender p));
                   ("height", VFloat (height p));
                   ("weight", VFloat (weight p));
                   ("bmi", VFloat b); ("verdict", VStr v) ])))).
  { intros info G. unfold get_patient. rewrite G.
    destruct (Patient_of_entry str_as_int str_as_float pid info)
      as [p | e] eqn:E; simpl.
    - right. right.
      destruct (constructed_record_bounds_aux _ _ pid info p E) as [Hb Hid].
      split.
      { unfold Patient_of_entry in E.
        destruct (Dict.mem "id" info); [discriminate | reflexivity]. }
      exists p. repeat split; try apply Hb; auto.
      destruct (bmi pow p) as [b | e] eqn:Eb.
      + right. exists b.
        rewrite (model_dump_of_bmi pow p b [] Eb),
          (verdict_cascade pow p b Eb), Hid.
        eexists. repeat split.
      + left. exists e. split; [reflexivity |].
        split; [now apply (bmi_Err pow p) |].
        unfold model_dump. rewrite Eb. reflexivity.
    - apply Patient_of_entry_Err in E.
      destruct E as [[-> M] | [-> M]]; auto. }
  split.
  { unfold get_patient. destruct (Dict.get pid (load_data f)); reflexivity. }
  split; [| exact Cases].
  destruct (Dict.get pid (load_data f)) as [info |] eqn:G.
  - split; [| discriminate]. intros H.
    destruct (Cases info eq_refl)
      as [[_ H'] | [(_ & _ & H') | (_ & p & _ & _ & _ & [(e & _ & He & H') | (b & v & _ & _ & H')])]];
      rewrite H' in H; try discriminate.
    destruct He as [-> | [-> | ->]]; discriminate.
  - split; [reflexivity |]. intros _. unfold get_patient. rewrite G. reflexivity.
Qed.

End StoreProperties.

(** ** More on the built-in [sorted] *)

Lemma float_eq_common (a b k : float) :
  (a =? k)%float = true -> (b =? k)%float = true -> (a =? b)%float = true.
Proof. intros. float_order. Qed.

Section SortedBuiltinMore.

Context {A : Type}.

Lemma stable_sort_fixed (l : list (float * A)) :
  StronglySorted key_le l -> stable_sort l = l.
Proof.
  induction 1 as [| x t St IH Hx]; simpl; auto.
  rewrite IH. destruct t as [| y t']; simpl; auto.
  inversion Hx as [| ? ? Hxy _]; subst. unfold key_le in Hxy.
  now rewrite Hxy.
Qed.

Lemma equal_keys_sorted (l : list (float * A)) :
  (forall a b, In a l -> In b l -> (fst a =? fst b)%float = true) ->
  StronglySorted key_le l.
Proof.
  induction l as [| x t IH]; intros H; constructor.
  - apply IH. intros a b Ha Hb. apply H; now right.
  - apply Forall_forall. intros y Hy. unfold key_le.
    apply float_eq_not_lt. apply H; [now left | now right].
Qed.

Lemma StronglySorted_of_map_fst (s : list (float * A)) :
  StronglySorted (fun x y => (y <? x)%float = false) (map fst s) ->
  StronglySorted key_le s.
Proof.
  induction s as [| x t IH]; simpl; intros H; constructor;
    inversion H as [| ? ? St Hx]; subst; auto.
  rewrite Forall_map in Hx. exact Hx.
Qed.

Lemma mapM_keyed_of_keys (key : A -> outcome float) (l : list A)
  (keys : list float) :
  mapM key l = Ok keys ->
  exists keyed,
    mapM (fun x => k <- key x ;; Ok (k, x)) l = Ok keyed /\
    map fst keyed = keys /\ map snd keyed = l.
Proof.
  revert keys. induction l as [| x t IH]; simpl; intros keys H.
  - injection H as <-. exists []. auto.
  - apply bind_Ok_inv in H. destruct H as (k & Hk & H).
    apply bind_Ok_inv in H. destruct H as (ks & Hks & H).
    injection H as <-.
    destruct (IH ks Hks) as (keyed & E & E1 & E2).
    exists ((k, x) :: keyed). rewrite Hk. simpl. rewrite E. simpl.
    rewrite E1, E2. auto.
Qed.

Lemma sorted_permutation_unique (l1 l2 : list (float * A)) :
  Permutation l1 l2 ->
  Forall (fun a => is_nan (fst a) = false) l1 ->
  StronglySorted key_le l1 -> StronglySorted key_le l2 ->
  (forall k, (List.length (filter (key_is k) l1) <= 1)%nat) ->
  l1 = l2.
Proof.
  revert l2. induction l1 as [| a t1 IH]; intros l2 P N S1 S2 U.
  - apply Permutation_nil in P. now subst.
  - destruct l2 as [| b t2].
    { symmetry in P. apply Permutation_nil in P. discriminate. }
    inversion N as [| ? ? Na Nt]; subst.
    assert (E : a = b).
    { assert (Ia : In a (b :: t2))
        by (eapply Permutation_in; [exact P | now left]).
      destruct Ia as [-> | Ia]; [reflexivity |].
      assert (Ib : In b (a :: t1))
        by (eapply Permutation_in; [symmetry; exact P | now left]).
      destruct Ib as [-> | Ib]; [reflexivity |].
      exfalso.
      inversion S1 as [| ? ? _ F1]; subst.
      inversion S2 as [| ? ? _ F2]; subst.
      rewrite Forall_forall in F1, F2, Nt.
      pose proof (F1 b Ib) as L1. pose proof (F2 a Ia) as L2.
      pose proof (Nt b Ib) as Nb.
      unfold key_le in L1, L2.
      pose proof (float_le_antisym (fst a) (fst b) Na Nb L1 L2) as Eq.
      specialize (U (fst a)). simpl in U.
      unfold key_is at 1 in U.
      rewrite (float_eq_refl (fst a) Na) in U.
      simpl in U.
      assert (Ib' : In b (filter (key_is (fst a)) t1)).
      { apply filter_In. split; [exact Ib | exact Eq]. }
      destruct (filter (key_is (fst a)) t1); [destruct Ib' | simpl in U; lia]. }
    subst b. f_equal. apply IH.
    + eapply Permutation_cons_inv. exact P.
    + exact Nt.
    + now inversion S1.
    + now inversion S2.
    + intros k. specialize (U k). simpl in U.
      destruct (key_is k a); simpl in U; lia.
Qed.

Lemma stable_sort_rev (l : list (float * A)) :
  Forall (fun a => is_nan (fst a) = false) l ->
  (forall k, (List.length (filter (key_is k) l) <= 1)%nat) ->
  stable_sort (rev l) = stable_sort l.
Proof.
  intros N U. symmetry. apply sorted_permutation_unique.
  - rewrite !stable_sort_perm. apply Permutation_rev.
  - eapply Permutation_Forall; [symmetry; apply stable_sort_perm | exact N].
  - now apply stable_sort_sorted.
  - apply stable_sort_sorted. now apply Forall_rev.
  - intros k. rewrite filter_stable_sort. apply U.
Qed.

Lemma mapM_app {B C : Type} (f : B -> outcome C) (l1 l2 : list B)
  (ys1 ys2 : list C) :
  mapM f l1 = Ok ys1 -> mapM f l2 = Ok ys2 ->
  mapM f (l1 ++ l2)%list = Ok (ys1 ++ ys2)%list.
Proof.
  revert ys1. induction l1 as [| x t IH]; simpl; intros ys1 H1 H2.
  - injection H1 as <-. exact H2.
  - apply bind_Ok_inv in H1. destruct H1 as (y & Hy & H1).
    apply bind_Ok_inv in H1. destruct H1 as (ys & Hys & H1).
    injection H1 as <-. rewrite Hy. simpl.
    rewrite (IH ys Hys H2). reflexivity.
Qed.

Lemma mapM_rev {B C : Type} (f : B -> outcome C) (l : list B) (ys : list C) :
  mapM f l = Ok ys -> mapM f (rev l) = Ok (rev ys).
Proof.
  revert ys. induction l as [| x t IH]; simpl; intros ys H.
  - injection H as <-. reflexivity.
  - apply bind_Ok_inv in H. destruct H as (y & Hy & H).
    apply bind_Ok_inv in H. destruct H as (ys' & Hys & H).
    injection H as <-. simpl.
    apply mapM_app; [now apply IH |]. simpl. now rewrite Hy.
Qed.

End SortedBuiltinMore.

(** ** More on sorting the store *)

Lemma existsb_eqb_In (s : string) (l : list string) :
  existsb (String.eqb s) l = true <-> In s l.
Proof.
  rewrite existsb_exists. split.
  - intros (x & Hx & E). apply String.eqb_eq in E. now subst.
  - intros H. exists s. split; [exact H | apply String.eqb_refl].
Qed.

Lemma mapM_Err_Exists {A B : Type} (f : A -> outcome B) (l : list A) :
  Exists (fun x => exists e, f x = Err e) l ->
  exists x e, In x l /\ f x = Err e /\ mapM f l = Err e.
Proof.
  induction l as [| x t IH]; intros H; [inversion H |].
  simpl. destruct (f x) as [y | e] eqn:E.
  - inversion H as [? ? [e He] | ? ? Ht]; subst; [congruence |].
    destruct (IH Ht) as (x' & e & Hin & He & Hm).
    exists x', e. simpl. rewrite Hm. auto.
  - exists x, e. simpl. auto.
Qed.

Lemma mapM_Ok_map {A B : Type} (f : A -> outcome B) (dflt : B)
  (l : list A) (ys : list B) :
  mapM f l = Ok ys ->
  ys = map (fun x => match f x with Ok y => y | Err _ => dflt end) l.
Proof.
  revert ys. induction l as [| x t IH]; simpl; intros ys H.
  - now injection H as <-.
  - apply bind_Ok_inv in H. destruct H as (y & Hy & H).
    apply bind_Ok_inv in H. destruct H as (ys' & Hys & H).
    injection H as <-. rewrite Hy. f_equal. now apply IH.
Qed.

Lemma mapM_Forall_in {A B : Type} (f : A -> outcome B) (P : B -> Prop)
  (l : list A) (ys : list B) :
  Forall (fun x => forall y, f x = Ok y -> P y) l ->
  mapM f l = Ok ys -> Forall P ys.
Proof.
  intros F. revert ys. induction F as [| x t Hx _ IH]; simpl; intros ys H.
  - injection H as <-. constructor.
  - apply bind_Ok_inv in H. destruct H as (y & Hy & H).
    apply bind_Ok_inv in H. destruct H as (ys' & Hys & H).
    injection H as <-. constructor; auto.
Qed.

Lemma mapM_Ok_each {A B : Type} (f : A -> outcome B) (l : list A)
  (ys : list B) :
  mapM f l = Ok ys -> Forall (fun x => exists y, f x = Ok y) l.
Proof.
  revert ys. induction l as [| x t IH]; simpl; intros ys H; constructor.
  - destruct (f x) as [y |]; [eauto | discriminate].
  - apply bind_Ok_inv in H. destruct H as (y & Hy & H).
    apply bind_Ok_inv in H. destruct H as (ys' & Hys & H).
    eauto.
Qed.

Lemma getattr_defined (pow : c_pow) (p : Patient) (sort_by : string) :
  In sort_by valid_fields ->
  (exists b, bmi pow p = Ok b) ->
  exists k, getattr pow p sort_by = Ok k.
Proof.
  intros Hs [b Hb]. unfold valid_fields in Hs. simpl in Hs.
  destruct Hs as [<- | [<- | [<- | []]]]; unfold getattr; simpl; eauto.
Qed.

Section SortProperties.

Variable pow : c_pow.
Variable str_as_int : string -> option Z.
Variable str_as_float : string -> option float.

Lemma sort_patients_run (sort_by : string) (order : option string) (f : file) :
  In sort_by valid_fields ->
  In order [None; Some "asc"; Some "desc"] ->
  sort_patients pow str_as_int str_as_float sort_by order f =
    (patients <- mapM (fun e => Patient_of_entry str_as_int str_as_float
                                  (fst e) (snd e)) (load_data f) ;;
     sorted_patients <- sorted patients (fun x => getattr pow x sort_by)
                               (String.eqb
                                  (match order with Some o => o | None => "asc" end)
                                  "desc") ;;
     mapM (fun p => model_dump pow p []) sorted_patients, f).
Proof.
  intros Hs Ho. unfold sort_patients.
  rewrite (proj2 (existsb_eqb_In sort_by valid_fields) Hs).
  simpl in Ho. destruct Ho as [<- | [<- | [<- | []]]]; reflexivity.
Qed.

(** X13.  Sort checks its arguments before it looks at the store: a sort
    field outside height, weight and bmi gives the 400 error on the field,
    even when the order is wrong too; a valid field with an order other
    than absent, asc or desc gives the 400 error on the order.  A sort that
    returns a list was given valid arguments, and no sort changes the
    file. *)
Theorem sort_arguments_checked
  (sort_by : string) (order : option string) (f : file) :
  (~ In sort_by valid_fields ->
   sort_patients pow str_as_int str_as_float sort_by order f =
     (Err (HTTPException 400 "sort_by must be ['height', 'weight', 'bmi']"),
      f)) /\
  (In sort_by valid_fields ->
   ~ In order [None; Some "asc"; Some "desc"] ->
   sort_patients pow str_as_int str_as_float sort_by order f =
     (Err (HTTPException 400 "order must be asc or desc"), f)) /\
  (forall docs,
      fst (sort_patients pow str_as_int str_as_float sort_by order f) = Ok docs ->
      In sort_by valid_fields /\ In order [None; Some "asc"; Some "desc"]) /\
  snd (sort_patients pow str_as_int str_as_float sort_by order f) = f.
Proof.
  assert (Eo : existsb (String.eqb (match order with Some o => o | None => "asc" end))
                 ["asc"; "desc"] = true <->
               In order [None; Some "asc"; Some "desc"]).
  { rewrite existsb_eqb_In. destruct order as [o |]; simpl.
    - split.
      + intros [<- | [<- | []]]; auto.
      + intros [H | [H | [H | []]]]; try discriminate;
          injection H as <-; auto.
    - tauto. }
  unfold sort_patients.
  destruct (existsb (String.eqb sort_by) valid_fields) eqn:Es.
  - apply existsb_eqb_In in Es.
    destruct (existsb _ ["asc"; "desc"]) eqn:Eo'.
    + pose proof (proj1 Eo eq_refl) as Ho. simpl.
      repeat split; auto; tauto.
    + simpl. repeat split; auto; try tauto; try discriminate.
  - assert (Hn : ~ In sort_by valid_fields).
    { intros H. apply existsb_eqb_In in H. congruence. }
    cbn [negb fst snd]. repeat split; auto; try discriminate; tauto.
Qed.

(** X14.  One entry that does not construct spoils a sort for the whole
    store: with valid arguments, if some stored entry is refused by the
    model class, sort returns no list but an error, a [TypeError] or a
    validation error, and leaves the file as it was. *)
Theorem sort_fails_on_bad_entry
  (sort_by : string) (order : option string) (f : file) :
  In sort_by valid_fields ->
  In order [None; Some "asc"; Some "desc"] ->
  Exists (fun e => exists x,
            Patient_of_entry str_as_int str_as_float (fst e) (snd e) = Err x)
         (load_data f) ->
  exists x,
    sort_patients pow str_as_int str_as_float sort_by order f = (Err x, f) /\
    (x = TypeError \/ x = ValidationError).
Proof.
  intros Hs Ho Hbad. rewrite (sort_patients_run sort_by order f Hs Ho).
  destruct (mapM_Err_Exists _ _ Hbad) as (e & x & _ & He & Hm).
  exists x. rewrite Hm. split; [reflexivity |].
  apply Patient_of_entry_Err in He. tauto.
Qed.

(** X15.  On a consistent store a sort with valid arguments never fails,
    and what it returns is, in some order, exactly what a get returns for
    each key: every stored document with its ID put in front, none lost
    and none twice. *)
Theorem sort_serves_every_entry
  (sort_by : string) (order : option string) (f : file) :
  store_consistent pow (load_data f) ->
  In sort_by valid_fields ->
  In order [None; Some "asc"; Some "desc"] ->
  exists docs,
    sort_patients pow str_as_int str_as_float sort_by order f = (Ok docs, f) /\
    Permutation docs
      (map (fun e => ("id", VStr (fst e)) :: snd e) (load_data f)).
Proof.
  intros [_ F] Hs Ho. rewrite (sort_patients_run sort_by order f Hs Ho).
  set (build := fun e : string * doc =>
                  Patient_of_entry str_as_int str_as_float (fst e) (snd e)).
  set (dump := fun p : Patient => model_dump pow p []).
  destruct (mapM_total build (load_data f)) as [ps Hps].
  { eapply Forall_impl; [| exact F]. intros e He.
    destruct (entry_consistent_rebuilt pow str_as_int str_as_float _ _ He)
      as (p & Hp & _). eauto. }
  assert (Hdef : Forall (fun p => exists b, bmi pow p = Ok b) ps).
  { eapply mapM_Forall_in; [| exact Hps].
    eapply Forall_impl; [| exact F]. intros e He p Hp.
    destruct (entry_consistent_rebuilt pow str_as_int str_as_float _ _ He)
      as (p' & Hp' & Hfull).
    unfold build in Hp. rewrite Hp' in Hp. injection Hp as <-.
    apply model_dump_Ok_inv in Hfull.
    destruct Hfull as (b & v & Hb & _). eauto. }
  destruct (sorted_total ps (fun x => getattr pow x sort_by)
              (String.eqb (match order with Some o => o | None => "asc" end)
                          "desc")) as [res Hres].
  { eapply Forall_impl; [| exact Hdef].
    intros p Hp. now apply getattr_defined. }
  destruct (sorted_Ok_inv _ _ _ _ Hres) as (Perm & _ & _).
  destruct (mapM_total dump res) as [docs Hdocs].
  { eapply Permutation_Forall; [symmetry; exact Perm |].
    eapply Forall_impl; [| exact Hdef].
    intros p Hp. now apply model_dump_Ok. }
  exists docs. rewrite Hps. simpl bind. rewrite Hres. simpl bind.
  fold dump. rewrite Hdocs. split; [reflexivity |].
  rewrite (mapM_Ok_map dump [] res docs Hdocs).
  rewrite (mapM_Ok_map build patient_P001 (load_data f) ps Hps) in Perm.
  rewrite Perm, map_map. apply Permutation_refl'.
  apply map_ext_in. intros e He.
  rewrite Forall_forall in F. specialize (F e He).
  destruct (entry_consistent_rebuilt pow str_as_int str_as_float _ _ F)
    as (p & Hp & Hfull).
  unfold build, dump. rewrite Hp, Hfull. reflexivity.
Qed.

End SortProperties.

Section SortOrderProperties.

Variable pow : c_pow.
Variable str_as_int : string -> option Z.
Variable str_as_float : string -> option float.

(** X16.  Sorting does not disturb an order that is already there.  Take
    a store whose entries all construct into records that each have a sort
    key and a dump.  When no key, taken in store order, is below an earlier
    one, an ascending sort (asked for or by default) returns the dumps in
    store order; when all keys are equal, so does a descending sort: ties
    are never reversed. *)
Theorem sort_keeps_sorted_store
  (sort_by : string) (f : file) (ps : list Patient) (keys : list float)
  (docs : list doc) :
  In sort_by valid_fields ->
  mapM (fun e => Patient_of_entry str_as_int str_as_float (fst e) (snd e))
       (load_data f) = Ok ps ->
  mapM (fun p => getattr pow p sort_by) ps = Ok keys ->
  mapM (fun p => model_dump pow p []) ps = Ok docs ->
  (StronglySorted (fun x y => (y <? x)%float = false) keys ->
   sort_patients pow str_as_int str_as_float sort_by None f = (Ok docs, f) /\
   sort_patients pow str_as_int str_as_float sort_by (Some "asc") f =
     (Ok docs, f)) /\
  ((forall a b, In a keys -> In b keys -> (a =? b)%float = true) ->
   sort_patients pow str_as_int str_as_float sort_by (Some "desc") f =
     (Ok docs, f)).
Proof.
  intros Hs Hps Hkeys Hdocs.
  destruct (mapM_keyed_of_keys _ _ _ Hkeys) as (keyed & Hk & E1 & E2).
  split.
  - intros St.
    assert (R : sorted ps (fun x => getattr pow x sort_by) false = Ok ps).
    { unfold sorted. rewrite Hk. simpl.
      rewrite stable_sort_fixed, E2; [reflexivity |].
      apply StronglySorted_of_map_fst. now rewrite E1. }
    split; rewrite sort_patients_run; simpl; auto;
      rewrite Hps; simpl; rewrite R; simpl; now rewrite Hdocs.
  - intros Heq.
    assert (R : sorted ps (fun x => getattr pow x sort_by) true = Ok ps).
    { unfold sorted. rewrite Hk. simpl.
      rewrite stable_sort_fixed, rev_involutive, E2; [reflexivity |].
      apply equal_keys_sorted. intros a b Ha Hb.
      apply in_rev in Ha. apply in_rev in Hb.
      apply Heq; rewrite <- E1; now apply in_map. }
    rewrite sort_patients_run; simpl; auto.
    rewrite Hps. simpl. rewrite R. simpl. now rewrite Hdocs.
Qed.

(** X17.  When no sort key of the store is NaN and no two records share a
    key, a descending sort returns exactly the reverse of what an
    ascending sort (asked for or by default) returns. *)
Theorem sort_desc_reverses_asc
  (sort_by : string) (order : option string) (f : file)
  (ps : list Patient) (keys : list float) (docs : list doc) :
  In sort_by valid_fields ->
  In order [None; Some "asc"] ->
  mapM (fun e => Patient_of_entry str_as_int str_as_float (fst e) (snd e))
       (load_data f) = Ok ps ->
  mapM (fun p => getattr pow p sort_by) ps = Ok keys ->
  Forall (fun k => is_nan k = false) keys ->
  (forall k,
      (List.length (filter (key_matches (fun p => getattr pow p sort_by) k) ps)
       <= 1)%nat) ->
  sort_patients pow str_as_int str_as_float sort_by order f = (Ok docs, f) ->
  sort_patients pow str_as_int str_as_float sort_by (Some "desc") f =
    (Ok (rev docs), f).
Proof.
  intros Hs Ho Hps Hkeys Hnan Hu Hasc.
  assert (Ho' : In order [None; Some "asc"; Some "desc"])
    by (simpl in *; tauto).
  rewrite (sort_patients_run _ _ _ _ _ _ Hs Ho') in Hasc.
  rewrite sort_patients_run; simpl; auto.
  rewrite Hps in *. simpl bind in *.
  assert (Eo : String.eqb (match order with Some o => o | None => "asc" end)
                 "desc" = false).
  { simpl in Ho. destruct Ho as [<- | [<- | []]]; reflexivity. }
  rewrite Eo in Hasc. change (String.eqb "desc" "desc") with true.
  injection Hasc as Hasc.
  unfold sorted in *.
  destruct (mapM_keyed_of_keys _ _ _ Hkeys) as (keyed & Hk & E1 & E2').
  rewrite Hk in *. simpl bind in *.
  destruct (mapM_keyed _ _ _ Hk) as [E2 Kb].
  rewrite stable_sort_rev.
  - rewrite map_rev, (mapM_rev _ _ _ Hasc). reflexivity.
  - rewrite <- E1 in Hnan. now rewrite Forall_map in Hnan.
  - intros k. specialize (Hu k). rewrite <- E2 in Hu.
    rewrite (keyed_by_filter _ k keyed Kb) in Hu.
    now rewrite length_map in Hu.
Qed.

End SortOrderProperties.

(** ** The properties above at concrete inputs *)

Lemma file_ABC_consistent :
  store_consistent pow_square_once (load_data file_ABC).
Proof.
  set (s := load_data file_ABC). vm_compute in s. subst s. split.
  - repeat constructor; simpl; intuition discriminate.
  - repeat constructor;
      [exists patient_A | exists patient_B | exists patient_C];
      (split; [reflexivity |]);
      (split; [repeat split; vm_compute; reflexivity |]);
      vm_compute; reflexivity.
Qed.

Lemma update_then_get_witness :
  exists f' v,
    put_update pow_square_once no_str_as_int no_str_as_float "B"
      body_empty_names file_ABC =
      (Ok [("message", VStr "Patient updated successfully")], f') /\
    get_patient pow_square_once no_str_as_int no_str_as_float "B" f' =
      (Ok [ ("id", VStr "B"); ("name", VStr "");
            ("city", VStr ""); ("age", VInt 52);
            ("gender", VStr "Female"); ("height", VFloat 160);
            ("weight", VFloat 64);
            ("bmi", VFloat 25); ("verdict", VStr v) ], f') /\
    (exists sq,
        square_of pow_square_once (160 / 100) sq /\
        is_zero sq = false /\
        rounded_to_hundredths (64 / sq) 25) /\
    v = "Overweight".
Proof.
  apply (update_then_get pow_square_once no_str_as_int no_str_as_float "B"
           body_empty_names (mkPatient "P003" "" "" 52 "Female" 160 64)
           file_ABC 25);
    vm_compute; reflexivity.
Defined.

Lemma store_consistent_invariant_witness :
  store_consistent pow_square_once
    (load_data (snd (put_update pow_square_once no_str_as_int no_str_as_float
                       "B" body_empty_names file_ABC))).
Proof.
  apply (proj1 (proj2 (proj2
           (store_consistent_invariant pow_square_once
              no_str_as_int no_str_as_float)))
           "B" body_empty_names file_ABC).
  apply file_ABC_consistent.
Defined.

Lemma get_returns_stored_document_witness :
  get_patient pow_square_once no_str_as_int no_str_as_float "B" file_ABC =
    (Ok [ ("id", VStr "B"); ("name", VStr "Bina"); ("city", VStr "Surat");
          ("age", VInt 41); ("gender", VStr "Female");
          ("height", VFloat 100); ("weight", VFloat 31);
          ("bmi", VFloat 31); ("verdict", VStr "Obese") ], file_ABC).
Proof.
  apply (get_returns_stored_document pow_square_once
           no_str_as_int no_str_as_float "B"
           [ ("name", VStr "Bina"); ("city", VStr "Surat");
             ("age", VInt 41); ("gender", VStr "Female");
             ("height", VFloat 100); ("weight", VFloat 31);
             ("bmi", VFloat 31); ("verdict", VStr "Obese") ] file_ABC).
  - apply file_ABC_consistent.
  - vm_compute. reflexivity.
Defined.

Lemma get_patient_outcomes_witness :
  Dict.mem "id" [("id", VStr "P009"); ("name", VStr "Noor")] = true /\
  fst (get_patient pow_square_once no_str_as_int no_str_as_float "P009"
         file_with_id_inside) = Err TypeError.
Proof.
  destruct (proj2 (proj2 (get_patient_outcomes pow_square_once
                            no_str_as_int no_str_as_float
                            "P009" file_with_id_inside))
              [("id", VStr "P009"); ("name", VStr "Noor")] eq_refl)
    as [H | [[H _] | [H _]]]; [exact H | discriminate H | discriminate H].
Defined.

Lemma sort_arguments_checked_witness :
  sort_patients pow_square_once no_str_as_int no_str_as_float "name"
    (Some "up") file_with_id_inside =
    (Err (HTTPException 400 "sort_by must be ['height', 'weight', 'bmi']"),
     file_with_id_inside).
Proof.
  apply (proj1 (sort_arguments_checked pow_square_once
                  no_str_as_int no_str_as_float
                  "name" (Some "up") file_with_id_inside)).
  simpl. intuition discriminate.
Defined.

Lemma sort_fails_on_bad_entry_witness :
  exists x,
    sort_patients pow_square_once no_str_as_int no_str_as_float "bmi" None
      file_with_id_inside = (Err x, file_with_id_inside) /\
    (x = TypeError \/ x = ValidationError).
Proof.
  apply (sort_fails_on_bad_entry pow_square_once
           no_str_as_int no_str_as_float "bmi" None file_with_id_inside).
  - simpl. tauto.
  - simpl. tauto.
  - constructor. exists TypeError. reflexivity.
Defined.

Lemma sort_serves_every_entry_witness :
  exists docs,
    sort_patients pow_square_once no_str_as_int no_str_as_float "weight"
      (Some "desc") file_ABC = (Ok docs, file_ABC) /\
    Permutation docs
      (map (fun e => ("id", VStr (fst e)) :: snd e) (load_data file_ABC)).
Proof.
  apply (sort_serves_every_entry pow_square_once
           no_str_as_int no_str_as_float "weight" (Some "desc") file_ABC).
  - apply file_ABC_consistent.
  - simpl. tauto.
  - simpl. tauto.
Defined.

Lemma sort_keeps_sorted_store_witness :
  (StronglySorted (fun x y => (y <? x)%float = false)
     [100%float; 100%float; 100%float] ->
   sort_patients pow_square_once no_str_as_int no_str_as_float "height" None
     file_ABC =
     (Ok (map (fun e => ("id", VStr (fst e)) :: snd e) (load_data file_ABC)),
      file_ABC) /\
   sort_patients pow_square_once no_str_as_int no_str_as_float "height"
     (Some "asc") file_ABC =
     (Ok (map (fun e => ("id", VStr (fst e)) :: snd e) (load_data file_ABC)),
      file_ABC)) /\
  ((forall a b,
       In a [100%float; 100%float; 100%float] ->
       In b [100%float; 100%float; 100%float] -> (a =? b)%float = true) ->
   sort_patients pow_square_once no_str_as_int no_str_as_float "height"
     (Some "desc") file_ABC =
     (Ok (map (fun e => ("id", VStr (fst e)) :: snd e) (load_data file_ABC)),
      file_ABC)).
Proof.
  apply (sort_keeps_sorted_store pow_square_once
           no_str_as_int no_str_as_float "height"
           file_ABC [patient_A; patient_B; patient_C]
           [100%float; 100%float; 100%float]).
  - simpl. tauto.
  - vm_compute. reflexivity.
  - vm_compute. reflexivity.
  - vm_compute. reflexivity.
Defined.

Lemma sort_desc_reverses_asc_witness :
  sort_patients pow_square_once no_str_as_int no_str_as_float "bmi"
    (Some "desc") file_ABC =
    (Ok (rev (match fst (sort_patients pow_square_once
                           no_str_as_int no_str_as_float
                           "bmi" (Some "asc") file_ABC) with
              | Ok docs => docs
              | Err _ => []
              end)), file_ABC).
Proof.
  apply (sort_desc_reverses_asc pow_square_once
           no_str_as_int no_str_as_float "bmi"
           (Some "asc") file_ABC [patient_A; patient_B; patient_C]
           [18%float; 31%float; 24%float]).
  - simpl. tauto.
  - simpl. tauto.
  - vm_compute. reflexivity.
  - vm_compute. reflexivity.
  - repeat constructor.
  - intros k. unfold key_matches.
    simpl.
    replace (py_round 18 2) with 18%float by (vm_compute; reflexivity).
    replace (py_round 31 2) with 31%float by (vm_compute; reflexivity).
    replace (py_round 24 2) with 24%float by (vm_compute; reflexivity).
    destruct (18 =? k)%float eqn:E1, (31 =? k)%float eqn:E2,
      (24 =? k)%float eqn:E3; simpl; try lia; exfalso.
    + pose proof (float_eq_common _ _ _ E1 E2) as H. vm_compute in H.
      discriminate H.
    + pose proof (float_eq_common _ _ _ E1 E2) as H. vm_compute in H.
      discriminate H.
    + pose proof (float_eq_common _ _ _ E1 E3) as H. vm_compute in H.
      discriminate H.
    + pose proof (float_eq_common _ _ _ E2 E3) as H. vm_compute in H.
      discriminate H.
  - vm_compute. reflexivity.
Defined.
